(** * BrainPlus: the interpreter of [lib/brainplus.py], embedded in Rocq

    The Python class [Interpreter] is a mutable object driven by methods that
    may raise.  It is modelled here as a state-and-exception monad over the
    object's attributes: a raised exception leaves the attributes as they were
    at the [raise], exactly as a caller that catches it would find them.

    Conventions.
    - The semantics is that of Python 3: comparing an [int] with a [str]
      or with [None] raises [TypeError].
    - Python integers are [Z]; Python lists are [list]; a [str] is a list of
      [ascii] characters.
    - Subscripts follow Python: a negative index counts from the end, and an
      index out of range raises [IndexError].
    - The [while] loops of the source are [Fixpoint]s on a fuel argument; the
      two inner loops get the fuel they need from the length of the source
      (and are proved never to run out), [run] takes its fuel from the caller.
    - Host callbacks receive a view of the engine ([Machine]) and thread a
      host state [World]; they do not assign to the engine's attributes. *)

From Stdlib Require Import ZArith Ascii String Lia Bool.
From stdpp Require Import base list.

Local Open Scope Z_scope.

(** ** Python values and exceptions *)

Inductive exn :=
| IndexError
| KeyError (key : ascii)
| TypeError
| NameError (name : string).

Inductive outcome (A : Type) :=
| Return (a : A)
| Raise (e : exn)
| OutOfFuel.
Arguments Return {A} a.
Arguments Raise {A} e.
Arguments OutOfFuel {A}.

Module Py.

Definition len {A} (l : list A) : Z := Z.of_nat (length l).

Definition ord (c : ascii) : Z := Z.of_nat (nat_of_ascii c).

(** Position denoted by the subscript [i] of a sequence of length [len l]. *)
Definition index {A} (l : list A) (i : Z) : option nat :=
  if (0 <=? i) && (i <? len l) then Some (Z.to_nat i)
  else if (- len l <=? i) && (i <? 0) then Some (Z.to_nat (len l + i))
  else None.

(** [l[i]] *)
Definition getitem {A} (l : list A) (i : Z) : option A :=
  n ← index l i; l !! n.

(** [l[i] = v] *)
Definition setitem {A} (l : list A) (i : Z) (v : A) : option (list A) :=
  n ← index l i; Some (<[n:=v]> l).

(** [del l[i]] *)
Definition delitem {A} (l : list A) (i : Z) : option (list A) :=
  n ← index l i; Some (delete n l).

(** First position of [c] in [s], counting the head of [s] as [i]. *)
Fixpoint find_index (c : ascii) (s : list ascii) (i : Z) : Z :=
  match s with
  | [] => -1
  | x :: s' => if Ascii.eqb x c then i else find_index c s' (i + 1)
  end.

(** [s.find(c, start)] *)
Definition find (c : ascii) (s : list ascii) (start : Z) : Z :=
  let start := if start <? 0 then Z.max 0 (len s + start) else start in
  find_index c (drop (Z.to_nat start) s) start.

End Py.

(** ** class Stack *)

Module Stack.

Definition init : list Z := [].

Definition push (thing : Z) (stack : list Z) : list Z := stack ++ [thing].

Definition pop (stack : list Z) : option (Z * list Z) :=
  rv ← Py.getitem stack (-1);
  stack' ← Py.delitem stack (-1);
  Some (rv, stack').

Definition peek (stack : list Z) : option Z := Py.getitem stack (-1).

Definition is_empty (stack : list Z) : bool := Py.len stack =? 0.

End Stack.

(** ** class Interpreter: attributes *)

Definition max_functions : Z := 26.
Definition memory_size : Z := 30000.
Definition max_memory_value : Z := 255.

Record Machine := mkMachine {
  source : list ascii;
  functions : list Z;
  stack : list Z;
  memory_pointer : Z;
  instruction_pointer : Z;
  memory : list Z;
  cycle_count : Z;
  need_to_exit : bool
}.

Definition set_stack (v : list Z) (m : Machine) : Machine :=
  mkMachine (source m) (functions m) v (memory_pointer m)
            (instruction_pointer m) (memory m) (cycle_count m) (need_to_exit m).
Definition set_memory_pointer (v : Z) (m : Machine) : Machine :=
  mkMachine (source m) (functions m) (stack m) v
            (instruction_pointer m) (memory m) (cycle_count m) (need_to_exit m).
Definition set_instruction_pointer (v : Z) (m : Machine) : Machine :=
  mkMachine (source m) (functions m) (stack m) (memory_pointer m)
            v (memory m) (cycle_count m) (need_to_exit m).
Definition set_memory (v : list Z) (m : Machine) : Machine :=
  mkMachine (source m) (functions m) (stack m) (memory_pointer m)
            (instruction_pointer m) v (cycle_count m) (need_to_exit m).
Definition set_cycle_count (v : Z) (m : Machine) : Machine :=
  mkMachine (source m) (functions m) (stack m) (memory_pointer m)
            (instruction_pointer m) (memory m) v (need_to_exit m).
Definition set_need_to_exit (v : bool) (m : Machine) : Machine :=
  mkMachine (source m) (functions m) (stack m) (memory_pointer m)
            (instruction_pointer m) (memory m) (cycle_count m) v.

(** ** [find_functions] *)

(** The [while found >= 0] loop; [functions] is [self.functions]. *)
Fixpoint find_functions_while (fuel : nat) (source : list ascii)
    (functions : list Z) (found : Z) : option (list Z) :=
  if found >=? 0 then
    match fuel with
    | O => None
    | S fuel' =>
        find_functions_while fuel' source (functions ++ [found + 1])
          (Py.find "@" source (found + 1))
    end
  else Some functions.

(** The [raise] evaluates its message first, and the message reads the
    unbound name [functions]: what reaches the caller is a [NameError]. *)
Definition find_functions (source : list ascii) : outcome (list Z) :=
  match find_functions_while (S (length source)) source []
          (Py.find "@" source 0) with
  | None => OutOfFuel
  | Some functions =>
      if Py.len functions >? max_functions then Raise (NameError "functions")
      else Return functions
  end.

(** ** Specification-side notions *)

(** The offset immediately after each ["@"] of [s], in source order, where
    the head of [s] is at offset [i]. *)
Fixpoint offsets_after_delimiters (s : list ascii) (i : Z) : list Z :=
  match s with
  | [] => []
  | c :: s' =>
      if Ascii.eqb c "@" then (i + 1) :: offsets_after_delimiters s' (i + 1)
      else offsets_after_delimiters s' (i + 1)
  end.

(** Distance, in [rest], to the ["]"] that closes the loop once [depth]
    inner loops opened inside it have been closed as well. *)
Fixpoint closing_distance (depth : nat) (rest : list ascii) : option nat :=
  match rest with
  | [] => None
  | c :: rest' =>
      if Ascii.eqb c "[" then S <$> closing_distance (S depth) rest'
      else if Ascii.eqb c "]" then
        match depth with
        | O => Some O
        | S depth' => S <$> closing_distance depth' rest'
        end
      else S <$> closing_distance depth rest'
  end.

(** Nesting depth after reading [cs], starting from depth [d]: ["["] opens
    a level, ["]"] closes one. *)
Definition bracket_delta (c : ascii) : Z :=
  if Ascii.eqb c "[" then 1 else if Ascii.eqb c "]" then -1 else 0.

Fixpoint depth_after (cs : list ascii) (d : Z) : Z :=
  match cs with
  | [] => d
  | c :: cs' => depth_after cs' (d + bracket_delta c)
  end.

(** Depth reached by a scan that starts at depth 1 on the ["["] at [ip]
    and has read the characters up to position [k]. *)
Definition depth_at (source : list ascii) (ip k : Z) : Z :=
  depth_after (take (Z.to_nat (k - ip)) (drop (Z.to_nat (ip + 1)) source)) 1.

(** The position of the ["]"] matching the ["["] at position [ip]. *)
Definition matching_bracket (source : list ascii) (ip : Z) : option Z :=
  d ← closing_distance 0 (drop (Z.to_nat (ip + 1)) source);
  Some (ip + 1 + Z.of_nat d).

(** ** The engine and its host *)

Section Host.

(** State of the embedding program, as far as the callbacks touch it. *)
Context {World : Type}.

(** The objects an [Interpreter] is configured with.  The three callback
    kinds are the callables [input_function(interpreter)],
    [output_function(interpreter, byte)] and
    [on_execute(interpreter, instruction)]. *)
Inductive pyobj :=
| PyNone
| PyInt (z : Z)
| PyStr (s : string)
| PyInput (f : Machine -> World -> Z * World)
| PyOutput (f : Machine -> Z -> World -> World)
| PyTrace (f : Machine -> ascii -> World -> World).

Record Interpreter := mkInterpreter {
  attrs : Machine;
  cycle_limit : pyobj;
  input_function : pyobj;
  output_function : pyobj;
  on_execute : pyobj
}.

(** What a method call may change: the engine, the host, and the text
    printed so far. *)
Record State := mkState {
  self : Interpreter;
  host : World;
  stdout : list string
}.

Definition with_attrs (f : Machine -> Machine) (st : State) : State :=
  let i := self st in
  mkState (mkInterpreter (f (attrs i)) (cycle_limit i) (input_function i)
             (output_function i) (on_execute i))
          (host st) (stdout st).

Definition with_host (f : World -> World) (st : State) : State :=
  mkState (self st) (f (host st)) (stdout st).

(** *** The monad of methods *)

Definition M (A : Type) : Type := State -> outcome A * State.

#[global] Instance M_ret : MRet M := fun A a st => (Return a, st).

#[global] Instance M_bind : MBind M := fun A B f m st =>
  match m st with
  | (Return a, st') => f a st'
  | (Raise e, st') => (Raise e, st')
  | (OutOfFuel, st') => (OutOfFuel, st')
  end.

Definition raise {A} (e : exn) : M A := fun st => (Raise e, st).

Definition out_of_fuel {A} : M A := fun st => (OutOfFuel, st).

(** [self.f] for a data attribute [f] *)
Definition attr {A} (f : Machine -> A) : M A :=
  fun st => (Return (f (attrs (self st))), st).

(** [self.f] for a configuration attribute [f] *)
Definition config {A} (f : Interpreter -> A) : M A :=
  fun st => (Return (f (self st)), st).

(** [self.f = v], as [assign (set_f v)] *)
Definition assign (f : Machine -> Machine) : M unit :=
  fun st => (Return tt, with_attrs f st).

Definition print (line : string) : M unit :=
  fun st => (Return tt, mkState (self st) (host st) (stdout st ++ [line])).

Definition or_raise {A} (e : exn) (o : option A) : M A :=
  match o with
  | Some a => mret a
  | None => raise e
  end.

(** [self.stack.push(thing)] *)
Definition stack_push (thing : Z) : M unit :=
  s ← attr stack; assign (set_stack (Stack.push thing s)).

(** [self.stack.pop()] *)
Definition stack_pop : M Z :=
  s ← attr stack;
  '(rv, s') ← or_raise IndexError (Stack.pop s);
  assign (set_stack s');;
  mret rv.

(** [self.stack.is_empty()] *)
Definition stack_is_empty : M bool :=
  s ← attr stack; mret (Stack.is_empty s).

(** [self.memory[self.memory_pointer]] *)
Definition current_cell : M Z :=
  mem ← attr memory; mp ← attr memory_pointer;
  or_raise IndexError (Py.getitem mem mp).

(** [self.memory[self.memory_pointer] = v] *)
Definition set_current_cell (v : Z) : M unit :=
  mem ← attr memory; mp ← attr memory_pointer;
  mem' ← or_raise IndexError (Py.setitem mem mp v);
  assign (set_memory mem').

(** [self.instruction_pointer = self.instruction_pointer + 1] *)
Definition next_instruction : M unit :=
  ip ← attr instruction_pointer; assign (set_instruction_pointer (ip + 1)).

(** Truth value of an object in an [if]. *)
Definition truthy (o : pyobj) : bool :=
  match o with
  | PyNone => false
  | PyInt z => negb (z =? 0)
  | PyStr s => negb (String.eqb s "")
  | PyInput _ | PyOutput _ | PyTrace _ => true
  end.

(** Calls of the three callbacks; an object that is not a callable of the
    expected kind raises [TypeError]. *)
Definition call_input (o : pyobj) : M Z :=
  match o with
  | PyInput f => fun st =>
      let '(v, w) := f (attrs (self st)) (host st) in
      (Return v, with_host (fun _ => w) st)
  | _ => raise TypeError
  end.

Definition call_output (o : pyobj) (v : Z) : M unit :=
  match o with
  | PyOutput f => fun st =>
      (Return tt, with_host (f (attrs (self st)) v) st)
  | _ => raise TypeError
  end.

Definition call_trace (o : pyobj) (instruction : ascii) : M unit :=
  match o with
  | PyTrace f => fun st =>
      (Return tt, with_host (f (attrs (self st)) instruction) st)
  | _ => raise TypeError
  end.

(** *** Instructions *)

Definition instr_print (instruction : ascii) : M unit :=
  out ← config output_function;
  (if truthy out then
     v ← current_cell; call_output out v
   else mret tt);;
  next_instruction.

Definition instr_input (instruction : ascii) : M unit :=
  inp ← config input_function;
  (if truthy inp then
     v ← call_input inp; set_current_cell v
   else mret tt);;
  next_instruction.

Definition instr_inc_memory_pointer (instruction : ascii) : M unit :=
  mp ← attr memory_pointer; mem ← attr memory;
  (if mp <? Py.len mem - 1 then assign (set_memory_pointer (mp + 1))
   else mret tt);;
  next_instruction.

Definition instr_dec_memory_pointer (instruction : ascii) : M unit :=
  mp ← attr memory_pointer;
  assign (set_memory_pointer (mp - 1));;
  mp ← attr memory_pointer;
  (if mp <? 0 then assign (set_memory_pointer 0) else mret tt);;
  next_instruction.

Definition instr_inc_memory (instruction : ascii) : M unit :=
  v ← current_cell;
  (if v <? max_memory_value then
     v ← current_cell; set_current_cell (v + 1)
   else set_current_cell 0);;
  next_instruction.

Definition instr_dec_memory (instruction : ascii) : M unit :=
  v ← current_cell;
  (if v >? 0 then
     v ← current_cell; set_current_cell (v - 1)
   else set_current_cell max_memory_value);;
  next_instruction.

(** The loop of [skip_to_loop_end]. *)
Fixpoint skip_to_loop_end_while (fuel : nat) (bracket_cnt : Z) : M unit :=
  ip ← attr instruction_pointer; src ← attr source;
  if (bracket_cnt >? 0) && (ip <? Py.len src) then
    match fuel with
    | O => out_of_fuel
    | S fuel' =>
        next_instruction;;
        ip ← attr instruction_pointer;
        instruction ← or_raise IndexError (Py.getitem src ip);
        if Ascii.eqb instruction "[" then
          skip_to_loop_end_while fuel' (bracket_cnt + 1)
        else if Ascii.eqb instruction "]" then
          skip_to_loop_end_while fuel' (bracket_cnt - 1)
        else skip_to_loop_end_while fuel' bracket_cnt
    end
  else mret tt.

(** Every pass moves the instruction pointer one step towards the end of
    the source, so the distance to the end is fuel enough. *)
Definition skip_to_loop_end : M unit :=
  ip ← attr instruction_pointer; src ← attr source;
  skip_to_loop_end_while (Z.to_nat (Py.len src - ip)) 1.

Definition instr_loop_start (instruction : ascii) : M unit :=
  v ← current_cell;
  (if v =? 0 then skip_to_loop_end
   else ip ← attr instruction_pointer; stack_push ip);;
  next_instruction.

Definition instr_loop_end (instruction : ascii) : M unit :=
  instr_ptr ← stack_pop;
  v ← current_cell;
  if negb (v =? 0) then assign (set_instruction_pointer instr_ptr)
  else next_instruction.

Definition instr_function_call (instruction : ascii) : M unit :=
  let function_no := Py.ord instruction - Py.ord "a" in
  fs ← attr functions;
  if function_no <? Py.len fs then
    ip ← attr instruction_pointer;
    stack_push (ip + 1);;
    target ← or_raise IndexError (Py.getitem fs function_no);
    assign (set_instruction_pointer target)
  else next_instruction.

Definition instr_return (instruction : ascii) : M unit :=
  no_caller ← stack_is_empty;
  if (no_caller : bool) then assign (set_need_to_exit true)
  else
    addr ← stack_pop;
    assign (set_instruction_pointer addr).

(** [self.instruction_dict]: the nine symbols, then the letters
    ["a"] to ["z"]. *)
Definition instruction_dict (c : ascii) : option (ascii -> M unit) :=
  if Ascii.eqb c "." then Some instr_print
  else if Ascii.eqb c "," then Some instr_input
  else if Ascii.eqb c ">" then Some instr_inc_memory_pointer
  else if Ascii.eqb c "<" then Some instr_dec_memory_pointer
  else if Ascii.eqb c "+" then Some instr_inc_memory
  else if Ascii.eqb c "-" then Some instr_dec_memory
  else if Ascii.eqb c "[" then Some instr_loop_start
  else if Ascii.eqb c "]" then Some instr_loop_end
  else if Ascii.eqb c "@" then Some instr_return
  else if (Py.ord "a" <=? Py.ord c) && (Py.ord c <? Py.ord "z" + 1)
    then Some instr_function_call
  else None.

Definition execute_instruction (instruction : ascii) : M unit :=
  handler ← or_raise (KeyError instruction) (instruction_dict instruction);
  handler instruction;;
  hook ← config on_execute;
  if truthy hook then call_trace hook instruction else mret tt.

(** [self.cycle_limit != 0 and self.cycle_count >= self.cycle_limit];
    ordering an [int] against anything but a number raises. *)
Definition cycle_limit_reached (limit : pyobj) (count : Z) : M bool :=
  match limit with
  | PyInt n => mret (negb (n =? 0) && (count >=? n))
  | _ => raise TypeError
  end.

Fixpoint run (fuel : nat) : M unit :=
  ip ← attr instruction_pointer; src ← attr source;
  exit ← attr need_to_exit;
  if (ip <? Py.len src) && negb exit then
    limit ← config cycle_limit; count ← attr cycle_count;
    limited ← cycle_limit_reached limit count;
    if (limited : bool) then print "Ending early due to cycle limit"
    else
      match fuel with
      | O => out_of_fuel
      | S fuel' =>
          instruction ← or_raise IndexError (Py.getitem src ip);
          execute_instruction instruction;;
          count ← attr cycle_count;
          assign (set_cycle_count (count + 1));;
          run fuel'
      end
  else mret tt.

(** *** Construction *)

(** [Interpreter.__init__] *)
Definition new_Interpreter (source : list ascii)
    (cycle_limit input_function output_function on_execute : pyobj)
    : outcome Interpreter :=
  match find_functions source with
  | Return fs =>
      Return (mkInterpreter
                (mkMachine source fs Stack.init 0 0
                   (replicate (Z.to_nat memory_size) 0) 0 false)
                cycle_limit input_function output_function on_execute)
  | Raise e => Raise e
  | OutOfFuel => OutOfFuel
  end.

(** [Interpreter(source, *args)]: positional arguments fill the parameters
    after [source] in order, the rest keep their defaults. *)
Definition call_Interpreter (source : list ascii) (args : list pyobj)
    : outcome Interpreter :=
  match args with
  | [] => new_Interpreter source (PyInt 0) PyNone PyNone PyNone
  | [a] => new_Interpreter source a PyNone PyNone PyNone
  | [a; b] => new_Interpreter source a b PyNone PyNone
  | [a; b; c] => new_Interpreter source a b c PyNone
  | [a; b; c; d] => new_Interpreter source a b c d
  | _ => Raise TypeError
  end.

Definition is_not_None (o : pyobj) : bool :=
  match o with PyNone => false | _ => true end.

(** [kwargs[key] = value] on a dictionary kept in insertion order. *)
Definition kwargs_set (key : string) (value : pyobj)
    (kwargs : list (string * pyobj)) : list (string * pyobj) :=
  if existsb (fun kv => String.eqb (fst kv) key) kwargs then
    map (fun kv => if String.eqb (fst kv) key then (key, value) else kv)
        kwargs
  else kwargs ++ [(key, value)].

(** [clone]: the call [Interpreter(new_source, *kwargs)] unpacks the
    dictionary with one star, which passes its keys, in order, as
    positional arguments. *)
Definition clone (this : Interpreter) (source' : option (list ascii))
    (cycle_limit input_function output_function on_execute : pyobj)
    : outcome Interpreter :=
  let kwargs : list (string * pyobj) := [] in
  let new_source :=
    match source' with
    | None => source (attrs this)
    | Some s => s
    end in
  let kwargs :=
    if is_not_None cycle_limit
    then kwargs_set "cycle_limit" cycle_limit kwargs else kwargs in
  let kwargs :=
    if is_not_None input_function
    then kwargs_set "input_function" input_function kwargs else kwargs in
  let kwargs :=
    if is_not_None output_function
    then kwargs_set "output_function" output_function kwargs else kwargs in
  let kwargs :=
    if is_not_None on_execute
    then kwargs_set "on_execute" on_execute kwargs else kwargs in
  call_Interpreter new_source (map (fun kv => PyStr (fst kv)) kwargs).

(** The state in which the host starts driving a fresh engine. *)
Definition start (i : Interpreter) (w : World) : State := mkState i w [].

End Host.

Arguments pyobj World : clear implicits.
Arguments Interpreter World : clear implicits.
Arguments State World : clear implicits.
Arguments M World A : clear implicits.

(** ** The methods that read and edit the functions *)

Module Str.

(** [s.split(sep)] for a one-character separator *)
Fixpoint split (sep : ascii) (s : list ascii) : list (list ascii) :=
  match s with
  | [] => [[]]
  | c :: s' =>
      if Ascii.eqb c sep then [] :: split sep s'
      else
        match split sep s' with
        | piece :: pieces => (c :: piece) :: pieces
        | [] => [[c]]
        end
  end.

(** [sep.join(pieces)] *)
Fixpoint join (sep : ascii) (pieces : list (list ascii)) : list ascii :=
  match pieces with
  | [] => []
  | [piece] => piece
  | piece :: pieces' => piece ++ sep :: join sep pieces'
  end.

(** A bound of a slice, brought into [0, len]: a negative one counts from
    the end. *)
Definition bound (len i : Z) : Z :=
  if i <? 0 then Z.max 0 (len + i) else Z.min i len.

(** [s[start:stop]] *)
Definition slice {A} (s : list A) (start stop : Z) : list A :=
  let start := bound (Py.len s) start in
  let stop := bound (Py.len s) stop in
  take (Z.to_nat (stop - start)) (drop (Z.to_nat start) s).

End Str.

Section Editing.

Context {World : Type}.

Definition get_function (this : Interpreter World) (index : Z)
    : outcome (list ascii) :=
  let fs := functions (attrs this) in
  let src := source (attrs this) in
  match Py.getitem fs index with
  | None => Raise IndexError
  | Some function_start =>
      if index + 1 <? Py.len fs then
        match Py.getitem fs (index + 1) with
        | None => Raise IndexError
        | Some function_end => Return (Str.slice src function_start (function_end - 1))
        end
      else
        let function_end := Py.len src + 1 in
        Return (Str.slice src function_start (function_end - 1))
  end.

(** The loop of [set_function] that adds empty functions. *)
Fixpoint set_function_while (fuel : nat) (index : Z)
    (split_source : list (list ascii)) (function_ctr : Z)
    : option (list (list ascii)) :=
  if function_ctr <? index + 1 then
    match fuel with
    | O => None
    | S fuel' =>
        set_function_while fuel' index (split_source ++ [[]])
          (function_ctr + 1)
    end
  else Some split_source.

(** The counter climbs by one to [index + 1]: the distance is fuel
    enough. *)
Definition set_function (this : Interpreter World) (index : Z)
    (function_source : list ascii) : outcome (Interpreter World) :=
  let split_source := Str.split "@" (source (attrs this)) in
  let function_ctr := Py.len (functions (attrs this)) in
  match set_function_while (Z.to_nat (index + 1 - function_ctr)) index
          split_source function_ctr with
  | None => OutOfFuel
  | Some split_source =>
      match Py.setitem split_source (index + 1) function_source with
      | None => Raise IndexError
      | Some split_source =>
          let new_source := Str.join "@" split_source in
          clone this (Some new_source) PyNone PyNone PyNone PyNone
      end
  end.

Definition source_no_functions (this : Interpreter World) : outcome (list ascii) :=
  let fs := functions (attrs this) in
  if Py.len fs >? 0 then
    match Py.getitem fs 0 with
    | None => Raise IndexError
    | Some first => Return (Str.slice (source (attrs this)) 0 (first - 1))
    end
  else Return (source (attrs this)).

End Editing.

(** [instruction_set]: the keys of [instruction_dict], in the order
    [__init__] inserts them. *)
Definition instruction_set : list ascii :=
  list_ascii_of_string ".,><+-[]@"
  ++ map (fun letter => ascii_of_nat (Z.to_nat letter))
       (seqZ (Py.ord "a") (Py.ord "z" + 1 - Py.ord "a")).

(** ** Notions used to state the properties *)

(** The characters with an entry in the dispatch table. *)
Definition alphabet : list ascii :=
  list_ascii_of_string ".,><+-[]@abcdefghijklmnopqrstuvwxyz".

(** Number of function delimiters in a source text. *)
Definition delimiter_count (s : list ascii) : Z :=
  Z.of_nat (count_occ ascii_dec s "@"%char).

(** The tape invariant: the pointer selects a cell, every cell is a byte. *)
Definition tape_ok (m : Machine) : Prop :=
  0 <= memory_pointer m < Py.len (memory m) /\
  Forall (fun v => 0 <= v <= max_memory_value) (memory m).

Section Notions.

Context {World : Type}.

(** The input callback, if there is one, returns bytes only. *)
Definition input_ok (o : pyobj World) : Prop :=
  forall f, o = PyInput f -> forall m w, 0 <= (f m w).1 <= max_memory_value.

(** [run] is about to fetch [c] and execute it: the loop condition holds and
    the cycle limit [limit], an integer, is not reached. *)
Definition about_to_execute (st : State World) (c : ascii) : Prop :=
  let m := attrs (self st) in
  instruction_pointer m < Py.len (source m) /\
  Py.getitem (source m) (instruction_pointer m) = Some c /\
  need_to_exit m = false /\
  exists limit, cycle_limit (self st) = PyInt limit /\
                (limit = 0 \/ cycle_count m < limit).

(** The three ways [run] ends without an exception. *)
Definition exhausted (st : State World) : Prop :=
  Py.len (source (attrs (self st))) <= instruction_pointer (attrs (self st)).

Definition halted (st : State World) : Prop :=
  need_to_exit (attrs (self st)) = true.

Definition cycle_limited (st : State World) : Prop :=
  exists limit, cycle_limit (self st) = PyInt limit /\ limit <> 0 /\
                limit <= cycle_count (attrs (self st)).

(** A method keeps [R] when every call, returning or raising, leaves the
    state related to the one it started from. *)
Definition keeps {A} (R : State World -> State World -> Prop) (m : M World A)
    : Prop :=
  forall st, R st (m st).2.

(** A method that always comes back, with a value or an exception. *)
Definition total {A} (m : M World A) : Prop :=
  forall st, (m st).1 <> OutOfFuel.

(** Relations between states that the bookkeeping common to all
    instructions respects: moving the instruction pointer, using the
    control stack, calling back into the host, printing. *)
Class Frame (R : State World -> State World -> Prop) := {
  frame_refl : forall st, R st st;
  frame_trans : forall st1 st2 st3, R st1 st2 -> R st2 st3 -> R st1 st3;
  frame_host : forall f st, R st (with_host f st);
  frame_stdout : forall out st, R st (mkState (self st) (host st) out);
  frame_stack : forall v st, R st (with_attrs (set_stack v) st);
  frame_instruction_pointer :
    forall v st, R st (with_attrs (set_instruction_pointer v) st)
}.

(** The halt flag is as it was. *)
Definition same_need_to_exit (st st' : State World) : Prop :=
  need_to_exit (attrs (self st')) = need_to_exit (attrs (self st)).

(** The cycle count, the configuration and the source are as they were. *)
Definition same_cycle (st st' : State World) : Prop :=
  cycle_count (attrs (self st')) = cycle_count (attrs (self st)) /\
  cycle_limit (self st') = cycle_limit (self st) /\
  source (attrs (self st')) = source (attrs (self st)).

(** The tape invariant, with the contract of the input callback it relies
    on, is carried over, and the tape keeps its capacity. *)
Definition tape_invariant (st : State World) : Prop :=
  input_ok (input_function (self st)) /\ tape_ok (attrs (self st)).

Definition carries_tape_invariant (st st' : State World) : Prop :=
  tape_invariant st ->
  tape_invariant st' /\
  Py.len (memory (attrs (self st'))) = Py.len (memory (attrs (self st))).

(** The unknown-instruction fault as the specification words it: the fault
    that reaches the host tells it the offending character and its source
    offset, that is, both can be read off the exception. *)
Definition fault_surfaces_character_and_offset : Prop :=
  exists (character_of : exn -> ascii) (offset_of : exn -> Z),
    forall (st : State World) (c : ascii) (fuel : nat),
      ~ In c alphabet ->
      about_to_execute st c ->
      exists e st',
        run (S fuel) st = (Raise e, st') /\
        character_of e = c /\
        offset_of e = instruction_pointer (attrs (self st)).

End Notions.

(** ** Notions for the methods outside the run loop *)

(** Where the pieces after the first start in [sep.join(pieces)], when the
    first piece starts at [i]. *)
Fixpoint piece_starts (pieces : list (list ascii)) (i : Z) : list Z :=
  match pieces with
  | [] => []
  | piece :: pieces' =>
      match pieces' with
      | [] => []
      | _ :: _ =>
          (i + Py.len piece + 1) :: piece_starts pieces' (i + Py.len piece + 1)
      end
  end.

(** A text without function delimiter. *)
Definition delimiter_free (s : list ascii) : Prop := ~ In "@"%char s.

Section EditingNotions.

Context {World : Type}.

(** The function table is the one the constructor computed from the
    source. *)
Definition constructed (this : Interpreter World) : Prop :=
  functions (attrs this)
  = offsets_after_delimiters (source (attrs this)) 0.

(** The program and the configuration are as they were. *)
Definition same_program (st st' : State World) : Prop :=
  source (attrs (self st')) = source (attrs (self st)) /\
  functions (attrs (self st')) = functions (attrs (self st)) /\
  cycle_limit (self st') = cycle_limit (self st) /\
  input_function (self st') = input_function (self st) /\
  output_function (self st') = output_function (self st) /\
  on_execute (self st') = on_execute (self st).

(** Everything but the host and the printed text is as it was. *)
Definition same_engine (st st' : State World) : Prop :=
  self st' = self st.

(** [run] has nothing left to do: the loop condition fails, or the cycle
    limit is reached. *)
Definition stopped (st : State World) : Prop :=
  exhausted st \/ halted st \/ cycle_limited st.

(** A trace hook that cannot raise: none, or a callable of the kind. *)
Definition quiet_hook (o : pyobj World) : Prop :=
  truthy o = false \/ exists f, o = PyTrace f.

(** An engine without cycle limit, not halted, whose source has ["[]"] at
    position [p] and whose current cell is not zero. *)
Definition spinning (p : Z) (st : State World) : Prop :=
  let m := attrs (self st) in
  cycle_limit (self st) = PyInt 0 /\
  need_to_exit m = false /\
  quiet_hook (on_execute (self st)) /\
  0 <= p /\
  Py.getitem (source m) p = Some "["%char /\
  Py.getitem (source m) (p + 1) = Some "]"%char /\
  exists v, Py.getitem (memory m) (memory_pointer m) = Some v /\ v <> 0.

(** The engine [this] with another instruction pointer, current cell,
    cycle count and control stack. *)
Definition retuned (this : Interpreter World) (ip cell count : Z)
    (stk : list Z) : Interpreter World :=
  let m := attrs this in
  mkInterpreter
    (mkMachine (source m) (functions m) stk (memory_pointer m) ip
       (<[Z.to_nat (memory_pointer m) := cell]> (memory m)) count
       (need_to_exit m))
    (cycle_limit this) (input_function this) (output_function this)
    (on_execute this).

(** An engine without cycle limit, not halted, whose source has ["[-]"] at
    position [p] and whose memory pointer is on the tape. *)
Definition clear_loop_at (p : Z) (this : Interpreter World) : Prop :=
  let m := attrs this in
  cycle_limit this = PyInt 0 /\
  need_to_exit m = false /\
  quiet_hook (on_execute this) /\
  0 <= p /\
  Py.getitem (source m) p = Some "["%char /\
  Py.getitem (source m) (p + 1) = Some "-"%char /\
  Py.getitem (source m) (p + 2) = Some "]"%char /\
  0 <= memory_pointer m < Py.len (memory m).

End EditingNotions.

(** ** Test hosts *)

(** A host that keeps a log of integers: bytes written, or pointer values
    seen by the trace hook. *)
Definition log_output : pyobj (list Z) :=
  PyOutput (fun _ v log => log ++ [v]).

Definition log_instruction_pointer : pyobj (list Z) :=
  PyTrace (fun m _ log => log ++ [instruction_pointer m]).

Definition log_memory_pointer : pyobj (list Z) :=
  PyTrace (fun m _ log => log ++ [memory_pointer m]).

(** A host that feeds the engine from a queue of bytes. *)
Definition queue_input : pyobj (list Z) :=
  PyInput (fun _ queue =>
             match queue with
             | [] => (0, [])
             | v :: queue' => (v, queue')
             end).

(** A small engine state built by hand: [src], with its function table,
    about to run at [ip] on the tape [cells] with control stack [stk]. *)
Definition tiny (src : string) (ip : Z) (cells : list Z) (stk : list Z)
    (exit : bool) : State unit :=
  let source := list_ascii_of_string src in
  mkState
    (mkInterpreter
       (mkMachine source (offsets_after_delimiters source 0) stk 0 ip cells 0
          exit)
       (PyInt 0) PyNone PyNone PyNone)
    tt [].

(** What a test reads back after [Interpreter(src, ...).run()]: how [run]
    ended, the host state, the first cells of the tape, the cycle count and
    the instruction pointer. *)
Definition run_test {World} (fuel : nat) (src : string)
    (limit inp out trace : pyobj World) (w : World)
    : option (outcome unit * World * list Z * Z * Z) :=
  match new_Interpreter (list_ascii_of_string src) limit inp out trace with
  | Return i =>
      let r := run fuel (start i w) in
      let m := attrs (self r.2) in
      Some (r.1, host r.2, take 2 (memory m), cycle_count m,
            instruction_pointer m)
  | _ => None
  end.

(** The cycle limit of [Interpreter(src).clone(cycle_limit=n)]. *)
Definition cloned_cycle_limit (src : string) (n : Z) : outcome (pyobj unit) :=
  match new_Interpreter (list_ascii_of_string src) (PyInt 0) PyNone PyNone
          PyNone with
  | Return i =>
      match clone i None (PyInt n) PyNone PyNone PyNone with
      | Return j => Return (cycle_limit j)
      | Raise e => Raise e
      | OutOfFuel => OutOfFuel
      end
  | Raise e => Raise e
  | OutOfFuel => OutOfFuel
  end.

(** Twenty-seven empty functions after a one-instruction main program. *)
Definition too_many_functions : list ascii :=
  list_ascii_of_string "." ++ concat (replicate 27 (list_ascii_of_string "@.")).

(** The engine of ["+a@-@."], as the constructor leaves its program: main
    program ["+a"], functions ["-"] and ["."]. *)
Definition two_functions : Interpreter unit :=
  self (tiny "+a@-@." 0 [0; 0; 0] [] false).

(** The engine of ["+a@-@."] with a cycle limit of 5 and its first cell
    at 7. *)
Definition limited_engine : Interpreter unit :=
  mkInterpreter
    (mkMachine (list_ascii_of_string "+a@-@.") [3; 5] [] 0 2 [7; 0; 0] 2 false)
    (PyInt 5) PyNone PyNone PyNone.

(** ** Properties *)

(** *** Python subscripts *)

(** Decide the integer comparisons of the goal from the context. *)
Ltac zbool :=
  unfold Py.len in *;
  repeat match goal with
    | |- context [?a <=? ?b] => destruct (Z.leb_spec a b); try lia
    | |- context [?a <? ?b] => destruct (Z.ltb_spec a b); try lia
    | |- context [?a >? ?b] => rewrite (Z.gtb_ltb a b)
    | |- context [?a >=? ?b] => rewrite (Z.geb_leb a b)
    | |- context [?a =? ?b] => destruct (Z.eqb_spec a b); try lia
    end.

Lemma getitem_in_range {A} (l : list A) (i : Z) :
  0 <= i < Py.len l -> Py.getitem l i = l !! Z.to_nat i.
Proof. intros Hi. unfold Py.getitem, Py.index. zbool. reflexivity. Qed.

Lemma getitem_past_end {A} (l : list A) (i : Z) :
  Py.len l <= i -> Py.getitem l i = None.
Proof. intros Hi. unfold Py.getitem, Py.index. zbool. reflexivity. Qed.

Lemma setitem_in_range {A} (l : list A) (i : Z) (v : A) :
  0 <= i < Py.len l -> Py.setitem l i v = Some (<[Z.to_nat i:=v]> l).
Proof. intros Hi. unfold Py.setitem, Py.index. zbool. reflexivity. Qed.

Lemma getitem_last {A} (l : list A) (x : A) :
  Py.getitem (l ++ [x]) (-1) = Some x.
Proof.
  unfold Py.getitem, Py.index, Py.len. rewrite length_app. simpl length.
  zbool. simpl.
  replace (Z.to_nat (Z.of_nat (length l + 1) + -1)) with (length l) by lia.
  apply list_lookup_middle. reflexivity.
Qed.

Lemma delete_last {A} (l : list A) (x : A) : delete (length l) (l ++ [x]) = l.
Proof.
  induction l as [|y l IH]; simpl; [reflexivity|]. f_equal. exact IH.
Qed.

Lemma delitem_last {A} (l : list A) (x : A) :
  Py.delitem (l ++ [x]) (-1) = Some l.
Proof.
  unfold Py.delitem, Py.index, Py.len. rewrite length_app. simpl length.
  zbool. simpl.
  replace (Z.to_nat (Z.of_nat (length l + 1) + -1)) with (length l) by lia.
  f_equal. apply delete_last.
Qed.

Lemma pop_empty : Stack.pop [] = None.
Proof. reflexivity. Qed.

Lemma pop_push (s : list Z) (thing : Z) :
  Stack.pop (Stack.push thing s) = Some (thing, s).
Proof.
  unfold Stack.pop, Stack.push.
  rewrite getitem_last, delitem_last. reflexivity.
Qed.

Lemma empty_or_push (l : list Z) :
  l = [] \/ exists s thing, l = Stack.push thing s.
Proof.
  destruct l as [|x l]; [left; reflexivity|right].
  destruct (exists_last (l:=x :: l)) as (s & thing & Hl); [discriminate|].
  exists s, thing. exact Hl.
Qed.

Lemma is_empty_push (s : list Z) (thing : Z) :
  Stack.is_empty (Stack.push thing s) = false.
Proof.
  unfold Stack.is_empty, Stack.push, Py.len. rewrite length_app. simpl.
  apply Z.eqb_neq. lia.
Qed.

(** *** The function table *)

(** [find_index] either finds no delimiter, and there is none, or stops on
    the first one. *)
Lemma find_index_delimiter (s : list ascii) (i : Z) :
  (Py.find_index "@" s i = -1 /\ offsets_after_delimiters s i = []) \/
  (exists k : nat,
     Py.find_index "@" s i = i + Z.of_nat k /\ (k < length s)%nat /\
     offsets_after_delimiters s i =
       (i + Z.of_nat k + 1)
         :: offsets_after_delimiters (drop (S k) s) (i + Z.of_nat k + 1)).
Proof.
  revert i. induction s as [|c s IH]; intros i; simpl.
  - left. split; reflexivity.
  - destruct (Ascii.eqb c "@").
    + right. exists 0%nat. simpl. rewrite drop_0.
      change (Z.of_nat 0) with 0. rewrite Z.add_0_r.
      split; [reflexivity|]. split; [lia|reflexivity].
    + destruct (IH (i + 1)) as [[H1 H2]|(k & H1 & H2 & H3)].
      * left. split; assumption.
      * right. exists (S k). rewrite H1, H3. simpl drop.
        replace (i + 1 + Z.of_nat k) with (i + Z.of_nat (S k)) by lia.
        split; [reflexivity|]. split; [simpl; lia|reflexivity].
Qed.

Lemma find_from (s : list ascii) (start : Z) :
  0 <= start ->
  Py.find "@" s start = Py.find_index "@" (drop (Z.to_nat start) s) start.
Proof.
  intros H. unfold Py.find.
  replace (start <? 0) with false by (symmetry; lia). reflexivity.
Qed.

(** The loop of [find_functions] collects the offsets after the delimiters
    from [start] on, whenever it has a unit of fuel per remaining character
    and one more. *)
Lemma find_functions_while_offsets fuel :
  forall src acc start,
    0 <= start ->
    (length (drop (Z.to_nat start) src) < fuel)%nat ->
    find_functions_while fuel src acc (Py.find "@" src start) =
      Some (acc ++ offsets_after_delimiters (drop (Z.to_nat start) src) start).
Proof.
  induction fuel as [|fuel IH]; intros src acc start Hstart Hfuel; [lia|].
  rewrite find_from by assumption.
  destruct (find_index_delimiter (drop (Z.to_nat start) src) start)
    as [[H1 H2]|(k & H1 & H2 & H3)].
  - rewrite H1, H2. simpl. rewrite app_nil_r. reflexivity.
  - rewrite H1, H3. simpl.
    replace (start + Z.of_nat k >=? 0) with true
      by (symmetry; rewrite Z.geb_leb; lia).
    rewrite IH; [|lia|].
    + rewrite <- app_assoc. simpl. rewrite drop_drop.
      replace (Z.to_nat start + S k)%nat
        with (Z.to_nat (start + Z.of_nat k + 1)) by lia.
      reflexivity.
    + rewrite length_drop in *. lia.
Qed.

Lemma offsets_length (s : list ascii) (i : Z) :
  Py.len (offsets_after_delimiters s i) = delimiter_count s.
Proof.
  unfold Py.len, delimiter_count. f_equal. revert i.
  induction s as [|c s IH]; intros i; simpl; [reflexivity|].
  destruct (Ascii.eqb_spec c "@") as [->|Hc].
  - destruct (ascii_dec "@" "@"); [|congruence]. simpl. f_equal. apply IH.
  - destruct (ascii_dec c "@"); [congruence|]. apply IH.
Qed.

Lemma find_functions_eq (src : list ascii) :
  find_functions src =
    if delimiter_count src >? max_functions then Raise (NameError "functions")
    else Return (offsets_after_delimiters src 0).
Proof.
  unfold find_functions.
  rewrite (find_functions_while_offsets (S (length src)) src [] 0)
    by (try (change (Z.to_nat 0) with 0%nat; rewrite drop_0); lia).
  simpl app. change (Z.to_nat 0) with 0%nat. rewrite drop_0.
  rewrite offsets_length. reflexivity.
Qed.

(** Every recorded offset is one past a delimiter, and every delimiter is
    recorded. *)
Lemma offsets_after_delimiters_elem (s : list ascii) (i k : Z) :
  In k (offsets_after_delimiters s i) <->
  i < k /\ s !! Z.to_nat (k - 1 - i) = Some "@"%char.
Proof.
  revert i. induction s as [|c s IH]; intros i; simpl.
  - split; [contradiction|]. intros [_ H]. discriminate.
  - destruct (Ascii.eqb_spec c "@") as [->|Hc]; simpl; rewrite IH.
    + split.
      * intros [<-|[Hk Hs]].
        -- split; [lia|]. replace (i + 1 - 1 - i) with 0 by lia. reflexivity.
        -- split; [lia|].
           replace (Z.to_nat (k - 1 - i)) with (S (Z.to_nat (k - 1 - (i + 1))))
             by lia.
           exact Hs.
      * intros [Hk Hs]. destruct (Z.eq_dec k (i + 1)) as [->|Hne];
          [left; reflexivity|right].
        split; [lia|].
        replace (Z.to_nat (k - 1 - i)) with (S (Z.to_nat (k - 1 - (i + 1))))
          in Hs by lia.
        exact Hs.
    + split.
      * intros [Hk Hs]. split; [lia|].
        replace (Z.to_nat (k - 1 - i)) with (S (Z.to_nat (k - 1 - (i + 1))))
          by lia.
        exact Hs.
      * intros [Hk Hs]. destruct (Z.eq_dec k (i + 1)) as [->|Hne].
        -- replace (i + 1 - 1 - i) with 0 in Hs by lia. simpl in Hs.
           congruence.
        -- split; [lia|].
           replace (Z.to_nat (k - 1 - i))
             with (S (Z.to_nat (k - 1 - (i + 1)))) in Hs by lia.
           exact Hs.
Qed.

(** *** Matching brackets *)

Lemma closing_distance_lt depth rest d :
  closing_distance depth rest = Some d -> (d < length rest)%nat.
Proof.
  revert depth d. induction rest as [|c rest IH]; intros depth d; simpl.
  - discriminate.
  - destruct (Ascii.eqb c "["); [|destruct (Ascii.eqb c "]")].
    + destruct (closing_distance (S depth) rest) as [d'|] eqn:E;
        [|discriminate].
      intros [= <-]. specialize (IH _ _ E). lia.
    + destruct depth as [|depth].
      * intros [= <-]. lia.
      * destruct (closing_distance depth rest) as [d'|] eqn:E;
          [|discriminate].
        intros [= <-]. specialize (IH _ _ E). lia.
    + destruct (closing_distance depth rest) as [d'|] eqn:E; [|discriminate].
      intros [= <-]. specialize (IH _ _ E). lia.
Qed.

(** Counting from depth [depth + 1], the depth first returns to 0 on the
    character at the closing distance. *)
Lemma closing_distance_depth depth rest d :
  closing_distance depth rest = Some d ->
  depth_after (take (S d) rest) (Z.of_nat depth + 1) = 0 /\
  forall k, (k <= d)%nat -> 0 < depth_after (take k rest) (Z.of_nat depth + 1).
Proof.
  revert depth d. induction rest as [|c rest IH]; intros depth d;
    [discriminate|].
  assert (Hgo : forall depth' d' delta,
            closing_distance depth' rest = Some d' ->
            bracket_delta c = delta ->
            Z.of_nat depth + 1 + delta = Z.of_nat depth' + 1 ->
            depth_after (take (S (S d')) (c :: rest)) (Z.of_nat depth + 1) = 0
            /\ forall k, (k <= S d')%nat ->
                         0 < depth_after (take k (c :: rest))
                               (Z.of_nat depth + 1)).
  { intros depth' d' delta Hd' Hc Hdepth.
    destruct (IH depth' d' Hd') as [H0 Hpos]. split.
    - simpl. rewrite Hc, Hdepth. exact H0.
    - intros [|k] Hk; simpl; [lia|]. rewrite Hc, Hdepth. apply Hpos. lia. }
  assert (Hdelta : bracket_delta c =
                     if Ascii.eqb c "[" then 1
                     else if Ascii.eqb c "]" then -1 else 0) by reflexivity.
  simpl closing_distance.
  destruct (Ascii.eqb c "["); [|destruct (Ascii.eqb c "]")].
  - destruct (closing_distance (S depth) rest) as [d'|] eqn:E;
      [|discriminate].
    intros [= <-]. apply (Hgo (S depth) d' 1 E Hdelta). lia.
  - destruct depth as [|depth].
    + intros [= <-]. split.
      * simpl. rewrite Hdelta. reflexivity.
      * intros k Hk. replace k with 0%nat by lia. simpl. lia.
    + destruct (closing_distance depth rest) as [d'|] eqn:E; [|discriminate].
      intros [= <-]. apply (Hgo depth d' (-1) E Hdelta). lia.
  - destruct (closing_distance depth rest) as [d'|] eqn:E; [|discriminate].
    intros [= <-]. apply (Hgo depth d' 0 E Hdelta). lia.
Qed.

(** The matching bracket is a ["]"]. *)
Lemma closing_distance_bracket depth rest d :
  closing_distance depth rest = Some d -> rest !! d = Some "]"%char.
Proof.
  revert depth d. induction rest as [|c rest IH]; intros depth d; simpl.
  - discriminate.
  - destruct (Ascii.eqb_spec c "["); [|destruct (Ascii.eqb_spec c "]")].
    + destruct (closing_distance (S depth) rest) as [d'|] eqn:E;
        [|discriminate].
      intros [= <-]. exact (IH _ _ E).
    + destruct depth as [|depth].
      * intros [= <-]. subst c. reflexivity.
      * destruct (closing_distance depth rest) as [d'|] eqn:E;
          [|discriminate].
        intros [= <-]. exact (IH _ _ E).
    + destruct (closing_distance depth rest) as [d'|] eqn:E; [|discriminate].
      intros [= <-]. exact (IH _ _ E).
Qed.

Lemma drop_cons_inv {A} (l : list A) (n : nat) (x : A) (rest : list A) :
  drop n l = x :: rest ->
  l !! n = Some x /\ drop (S n) l = rest /\ (n < length l)%nat.
Proof.
  intros H.
  assert (Hx : l !! n = Some x).
  { rewrite <- (Nat.add_0_r n), <- lookup_drop, H. reflexivity. }
  split; [exact Hx|]. split.
  - rewrite (drop_S l x n Hx) in H. congruence.
  - exact (lookup_lt_Some l n x Hx).
Qed.

Lemma matching_bracket_spec src ip close :
  0 <= ip ->
  matching_bracket src ip = Some close ->
  ip < close < Py.len src /\
  Py.getitem src close = Some "]"%char /\
  depth_at src ip close = 0 /\
  forall k, ip <= k < close -> 0 < depth_at src ip k.
Proof.
  intros Hip. unfold matching_bracket.
  destruct (closing_distance 0 (drop (Z.to_nat (ip + 1)) src)) as [d|] eqn:E;
    [|discriminate].
  simpl. intros [= <-].
  pose proof (closing_distance_lt _ _ _ E) as Hlt.
  pose proof (closing_distance_bracket _ _ _ E) as Hb.
  destruct (closing_distance_depth _ _ _ E) as [H0 Hpos].
  rewrite length_drop in Hlt. rewrite lookup_drop in Hb.
  assert (Hr : ip < ip + 1 + Z.of_nat d < Py.len src)
    by (unfold Py.len; lia).
  split; [exact Hr|]. split; [|split].
  - rewrite getitem_in_range by lia.
    replace (Z.to_nat (ip + 1 + Z.of_nat d)) with (Z.to_nat (ip + 1) + d)%nat
      by lia.
    exact Hb.
  - unfold depth_at.
    replace (Z.to_nat (ip + 1 + Z.of_nat d - ip)) with (S d) by lia.
    exact H0.
  - intros k Hk. unfold depth_at. apply (Hpos (Z.to_nat (k - ip))). lia.
Qed.

(** *** What every method keeps *)

Section Frames.

Context {World : Type}.
Implicit Types (st : State World) (c instruction : ascii).

Section Keeps.

Context (R : State World -> State World -> Prop) `{!Frame R}.

Lemma keeps_ret {A} (a : A) : keeps R (mret a).
Proof. intros st. apply frame_refl. Qed.

Lemma keeps_bind {A B} (m : M World A) (f : A -> M World B) :
  keeps R m -> (forall a, keeps R (f a)) -> keeps R (m ≫= f).
Proof.
  intros Hm Hf st. unfold mbind, M_bind. specialize (Hm st).
  destruct (m st) as [[a|e|] st']; simpl in *; try exact Hm.
  eapply frame_trans; [exact Hm | apply Hf].
Qed.

Lemma keeps_if {A} (b : bool) (m1 m2 : M World A) :
  keeps R m1 -> keeps R m2 -> keeps R (if b then m1 else m2).
Proof. destruct b; auto. Qed.

Lemma keeps_raise {A} e : keeps R (raise (A:=A) e).
Proof. intros st. apply frame_refl. Qed.

Lemma keeps_out_of_fuel {A} : keeps R (out_of_fuel (A:=A)).
Proof. intros st. apply frame_refl. Qed.

Lemma keeps_attr {A} (f : Machine -> A) : keeps R (attr f).
Proof. intros st. apply frame_refl. Qed.

Lemma keeps_config {A} (f : Interpreter World -> A) : keeps R (config f).
Proof. intros st. apply frame_refl. Qed.

Lemma keeps_or_raise {A} e (o : option A) : keeps R (or_raise e o).
Proof. destruct o; intros st; apply frame_refl. Qed.

Lemma keeps_assign (f : Machine -> Machine) :
  (forall st, R st (with_attrs f st)) -> keeps R (assign f).
Proof. intros H st. apply H. Qed.

Lemma keeps_print line : keeps R (print line).
Proof. intros st. apply frame_stdout. Qed.

Lemma keeps_call_input o : keeps R (call_input o).
Proof.
  destruct o; try apply keeps_raise. intros st. simpl.
  destruct (f _ _). apply frame_host.
Qed.

Lemma keeps_call_output o v : keeps R (call_output o v).
Proof.
  destruct o; try apply keeps_raise. intros st. apply frame_host.
Qed.

Lemma keeps_call_trace o c : keeps R (call_trace o c).
Proof.
  destruct o; try apply keeps_raise. intros st. apply frame_host.
Qed.

Lemma keeps_next_instruction : keeps R next_instruction.
Proof.
  apply keeps_bind; [apply keeps_attr|]. intros ip.
  apply keeps_assign, frame_instruction_pointer.
Qed.

Lemma keeps_stack_push thing : keeps R (stack_push thing).
Proof.
  apply keeps_bind; [apply keeps_attr|]. intros s.
  apply keeps_assign, frame_stack.
Qed.

Lemma keeps_stack_pop : keeps R stack_pop.
Proof.
  apply keeps_bind; [apply keeps_attr|]. intros s.
  apply keeps_bind; [apply keeps_or_raise|]. intros [rv s'].
  apply keeps_bind; [apply keeps_assign, frame_stack|]. intros _.
  apply keeps_ret.
Qed.

Lemma keeps_current_cell : keeps R current_cell.
Proof.
  apply keeps_bind; [apply keeps_attr|]. intros mem.
  apply keeps_bind; [apply keeps_attr|]. intros mp.
  apply keeps_or_raise.
Qed.

End Keeps.

End Frames.

Create HintDb keeps.

#[local] Hint Resolve keeps_ret keeps_raise keeps_out_of_fuel keeps_attr
  keeps_config keeps_or_raise keeps_print keeps_call_input keeps_call_output
  keeps_call_trace keeps_next_instruction keeps_stack_push keeps_stack_pop
  keeps_current_cell : keeps.

(** Break a method into its statements and close each with the frame. *)
Ltac keeps_auto :=
  repeat first
    [ match goal with
      | |- Frame _ => assumption
      | |- forall _, _ => intro
      end
    | solve [ eauto with keeps ]
    | apply keeps_bind
    | apply keeps_if
    | apply keeps_assign; first
        [ apply frame_instruction_pointer | apply frame_stack ] ].

Section Handlers.

Context {World : Type}.
Context (R : State World -> State World -> Prop) `{!Frame R}.
Implicit Types (st : State World) (c instruction : ascii).

Lemma keeps_instr_print c : keeps R (instr_print c).
Proof. unfold instr_print. keeps_auto. Qed.

Lemma keeps_skip_to_loop_end_while fuel :
  forall bracket_cnt, keeps R (skip_to_loop_end_while fuel bracket_cnt).
Proof.
  induction fuel as [|fuel IH]; intros cnt; simpl; keeps_auto.
Qed.

#[local] Hint Resolve keeps_skip_to_loop_end_while : keeps.

Lemma keeps_skip_to_loop_end : keeps R skip_to_loop_end.
Proof. unfold skip_to_loop_end. keeps_auto. Qed.

#[local] Hint Resolve keeps_skip_to_loop_end : keeps.

Lemma keeps_instr_loop_start c : keeps R (instr_loop_start c).
Proof. unfold instr_loop_start. keeps_auto. Qed.

Lemma keeps_instr_loop_end c : keeps R (instr_loop_end c).
Proof. unfold instr_loop_end. keeps_auto. Qed.

Lemma keeps_instr_function_call c : keeps R (instr_function_call c).
Proof. unfold instr_function_call. keeps_auto. Qed.

Lemma keeps_instr_return c :
  (forall v st, R st (with_attrs (set_need_to_exit v) st)) ->
  keeps R (instr_return c).
Proof.
  intros H. unfold instr_return, stack_is_empty. keeps_auto.
  apply keeps_assign, H.
Qed.

Section Tape.

Hypothesis frame_memory : forall v st, R st (with_attrs (set_memory v) st).
Hypothesis frame_memory_pointer :
  forall v st, R st (with_attrs (set_memory_pointer v) st).

Lemma keeps_set_current_cell v : keeps R (set_current_cell v).
Proof.
  unfold set_current_cell. keeps_auto. apply keeps_assign, frame_memory.
Qed.

#[local] Hint Resolve keeps_set_current_cell : keeps.

Lemma keeps_instr_input c : keeps R (instr_input c).
Proof. unfold instr_input. keeps_auto. Qed.

Lemma keeps_instr_inc_memory_pointer c : keeps R (instr_inc_memory_pointer c).
Proof.
  unfold instr_inc_memory_pointer. keeps_auto.
  apply keeps_assign, frame_memory_pointer.
Qed.

Lemma keeps_instr_dec_memory_pointer c : keeps R (instr_dec_memory_pointer c).
Proof.
  unfold instr_dec_memory_pointer.
  keeps_auto; apply keeps_assign, frame_memory_pointer.
Qed.

Lemma keeps_instr_inc_memory c : keeps R (instr_inc_memory c).
Proof. unfold instr_inc_memory. keeps_auto. Qed.

Lemma keeps_instr_dec_memory c : keeps R (instr_dec_memory c).
Proof. unfold instr_dec_memory. keeps_auto. Qed.

End Tape.

(** Whatever the four tape instructions, input and return keep, every
    handler of the dispatch table keeps. *)
Lemma keeps_dispatch c (h : ascii -> M World unit) :
  keeps R (instr_input c) ->
  keeps R (instr_inc_memory_pointer c) ->
  keeps R (instr_dec_memory_pointer c) ->
  keeps R (instr_inc_memory c) ->
  keeps R (instr_dec_memory c) ->
  (c = "@"%char -> keeps R (instr_return c)) ->
  instruction_dict c = Some h -> keeps R (h c).
Proof.
  intros Hin Hr Hl Hp Hm Hret. unfold instruction_dict.
  repeat match goal with
    | |- context [Ascii.eqb c ?x] => destruct (Ascii.eqb_spec c x)
    end;
    try (intros [= <-]; first
           [ assumption | apply keeps_instr_print | apply keeps_instr_loop_start
           | apply keeps_instr_loop_end | apply Hret; assumption ]).
  destruct (_ && _); [|discriminate].
  intros [= <-]. apply keeps_instr_function_call.
Qed.

Lemma keeps_execute_instruction c :
  (forall h, instruction_dict c = Some h -> keeps R (h c)) ->
  keeps R (execute_instruction c).
Proof.
  intros H. unfold execute_instruction.
  destruct (instruction_dict c) as [h|]; [|intros st; apply frame_refl].
  specialize (H h eq_refl).
  assert (K : keeps R (h c;;
                       hook ← config on_execute;
                       if truthy hook then call_trace hook c else mret tt))
    by keeps_auto.
  intros st. exact (K st).
Qed.

End Handlers.

(** *** Every instruction comes back *)

Section Total.

Context {World : Type}.
Implicit Types (st : State World) (c instruction : ascii).

Lemma bind_Return {A B} (m : M World A) (f : A -> M World B) st a st' :
  m st = (Return a, st') -> (m ≫= f) st = f a st'.
Proof. intros H. unfold mbind, M_bind. rewrite H. reflexivity. Qed.

Lemma bind_Raise {A B} (m : M World A) (f : A -> M World B) st e st' :
  m st = (Raise e, st') -> (m ≫= f) st = (Raise e, st').
Proof. intros H. unfold mbind, M_bind. rewrite H. reflexivity. Qed.

Lemma bind_bind_Return {A B C} (m : M World A) (g : A -> M World B)
    (f : B -> M World C) st a st' :
  m st = (Return a, st') -> ((m ≫= g) ≫= f) st = (g a ≫= f) st'.
Proof. intros H. unfold mbind, M_bind. rewrite H. reflexivity. Qed.

Lemma current_cell_eq st v :
  Py.getitem (memory (attrs (self st))) (memory_pointer (attrs (self st)))
    = Some v ->
  current_cell st = (Return v, st).
Proof.
  intros H. unfold current_cell, mbind, M_bind, attr, or_raise. simpl.
  rewrite H. reflexivity.
Qed.

Lemma current_cell_out_of_range st :
  Py.getitem (memory (attrs (self st))) (memory_pointer (attrs (self st)))
    = None ->
  current_cell st = (Raise IndexError, st).
Proof.
  intros H. unfold current_cell, mbind, M_bind, attr, or_raise. simpl.
  rewrite H. reflexivity.
Qed.

Lemma total_ret {A} (a : A) : total (World:=World) (mret a).
Proof. intros st. discriminate. Qed.

Lemma total_bind {A B} (m : M World A) (f : A -> M World B) :
  total m -> (forall a, total (f a)) -> total (m ≫= f).
Proof.
  intros Hm Hf st. unfold mbind, M_bind. specialize (Hm st).
  destruct (m st) as [[a|e|] st']; simpl in *;
    [apply Hf | discriminate | congruence].
Qed.

Lemma total_if {A} (b : bool) (m1 m2 : M World A) :
  total m1 -> total m2 -> total (if b then m1 else m2).
Proof. destruct b; auto. Qed.

Lemma total_raise {A} e : total (World:=World) (raise (A:=A) e).
Proof. intros st. discriminate. Qed.

Lemma total_attr {A} (f : Machine -> A) : total (World:=World) (attr f).
Proof. intros st. discriminate. Qed.

Lemma total_config {A} (f : Interpreter World -> A) : total (config f).
Proof. intros st. discriminate. Qed.

Lemma total_or_raise {A} e (o : option A) : total (World:=World) (or_raise e o).
Proof. destruct o; intros st; discriminate. Qed.

Lemma total_assign f : total (World:=World) (assign f).
Proof. intros st. discriminate. Qed.

Lemma total_print line : total (World:=World) (print line).
Proof. intros st. discriminate. Qed.

Lemma total_call_input (o : pyobj World) : total (call_input o).
Proof.
  destruct o; try apply total_raise. intros st. simpl.
  destruct (f _ _). discriminate.
Qed.

Lemma total_call_output (o : pyobj World) v : total (call_output o v).
Proof. destruct o; try apply total_raise. intros st. discriminate. Qed.

Lemma total_call_trace (o : pyobj World) c : total (call_trace o c).
Proof. destruct o; try apply total_raise. intros st. discriminate. Qed.

End Total.

Create HintDb total.

#[local] Hint Resolve total_ret total_raise total_attr total_config
  total_or_raise total_assign total_print total_call_input total_call_output
  total_call_trace : total.

Ltac total_auto :=
  repeat first
    [ match goal with
      | |- forall _, _ => intro
      end
    | solve [ eauto with total ]
    | apply total_bind
    | apply total_if ].

Section TotalHandlers.

Context {World : Type}.
Implicit Types (st : State World) (c instruction : ascii).

Lemma total_next_instruction : total (World:=World) next_instruction.
Proof. unfold next_instruction. total_auto. Qed.

Lemma total_stack_push thing : total (World:=World) (stack_push thing).
Proof. unfold stack_push. total_auto. Qed.

Lemma total_stack_pop : total (World:=World) stack_pop.
Proof.
  unfold stack_pop. apply total_bind; [total_auto|]. intros s.
  apply total_bind; [total_auto|]. intros [rv s']. total_auto.
Qed.

Lemma total_current_cell : total (World:=World) current_cell.
Proof. unfold current_cell. total_auto. Qed.

Lemma total_set_current_cell v : total (World:=World) (set_current_cell v).
Proof. unfold set_current_cell. total_auto. Qed.

#[local] Hint Resolve total_next_instruction total_stack_push total_stack_pop
  total_current_cell total_set_current_cell : total.

(** The fuel handed to the scan by [skip_to_loop_end] is enough. *)
Lemma skip_to_loop_end_while_fuel fuel :
  forall bracket_cnt st,
    (Z.to_nat (Py.len (source (attrs (self st)))
               - instruction_pointer (attrs (self st))) <= fuel)%nat ->
    (skip_to_loop_end_while fuel bracket_cnt st).1 <> OutOfFuel.
Proof.
  induction fuel as [|fuel IH]; intros cnt st Hfuel.
  - simpl. unfold mbind, M_bind, attr, mret, M_ret. simpl.
    destruct (_ && _) eqn:E; [|discriminate].
    apply andb_prop in E as [_ E]. apply Z.ltb_lt in E. lia.
  - simpl. unfold mbind, M_bind, attr, mret, M_ret, next_instruction, assign.
    simpl.
    destruct (_ && _) eqn:E; [|discriminate].
    apply andb_prop in E as [_ E]. apply Z.ltb_lt in E.
    destruct (Py.getitem _ _) as [i|]; simpl; [|discriminate].
    destruct (Ascii.eqb i "["); [|destruct (Ascii.eqb i "]")];
      apply IH; simpl; lia.
Qed.

Lemma total_skip_to_loop_end : total (World:=World) skip_to_loop_end.
Proof.
  intros st. unfold skip_to_loop_end, mbind, M_bind, attr. simpl.
  apply skip_to_loop_end_while_fuel. lia.
Qed.

#[local] Hint Resolve total_skip_to_loop_end : total.

Lemma total_handler c (h : ascii -> M World unit) :
  instruction_dict c = Some h -> total (h c).
Proof.
  unfold instruction_dict.
  repeat match goal with
    | |- context [if ?b then _ else _] => destruct b
    end;
    intros [= <-].
  all: unfold instr_print, instr_input, instr_inc_memory_pointer,
    instr_dec_memory_pointer, instr_inc_memory, instr_dec_memory,
    instr_loop_start, instr_loop_end, instr_function_call, instr_return,
    stack_is_empty; total_auto.
Qed.

Lemma total_execute_instruction c : total (World:=World) (execute_instruction c).
Proof.
  unfold execute_instruction. intros st.
  destruct (instruction_dict c) as [h|] eqn:E; [|discriminate].
  pose proof (total_handler c h E) as Hh.
  assert (K : total (h c;;
                     hook ← config on_execute;
                     if truthy hook then call_trace hook c else mret tt))
    by total_auto.
  exact (K st).
Qed.

End TotalHandlers.

(** *** The three frames *)

Section FrameInstances.

Context {World : Type}.
Implicit Types (st : State World) (c instruction : ascii).

#[global] Instance same_need_to_exit_frame : Frame (World:=World) same_need_to_exit.
Proof.
  split; unfold same_need_to_exit; try (intros; reflexivity).
  intros st1 st2 st3 H12 H23. congruence.
Qed.

#[global] Instance same_cycle_frame : Frame (World:=World) same_cycle.
Proof.
  split; unfold same_cycle; try (intros; repeat split; reflexivity).
  intros st1 st2 st3 (? & ? & ?) (? & ? & ?). repeat split; congruence.
Qed.

#[global] Instance carries_tape_invariant_frame :
  Frame (World:=World) carries_tape_invariant.
Proof.
  split; unfold carries_tape_invariant; try (intros; split; auto; fail).
  intros st1 st2 st3 H12 H23 H1.
  destruct (H12 H1) as [H2 L2]. destruct (H23 H2) as [H3 L3].
  split; [exact H3|congruence].
Qed.

Lemma getitem_Forall {A} (P : A -> Prop) (l : list A) (i : Z) (x : A) :
  Py.getitem l i = Some x -> Forall P l -> P x.
Proof.
  unfold Py.getitem. destruct (Py.index l i) as [n|]; [|discriminate].
  simpl. intros Hn Hl. exact (Forall_lookup_1 P l n x Hl Hn).
Qed.

Lemma setitem_Forall {A} (P : A -> Prop) (l l' : list A) (i : Z) (x : A) :
  Py.setitem l i x = Some l' -> Forall P l -> P x ->
  Forall P l' /\ Py.len l' = Py.len l.
Proof.
  unfold Py.setitem. destruct (Py.index l i) as [n|]; [|discriminate].
  simpl. intros [= <-] Hl Hx. split.
  - apply Forall_insert; assumption.
  - unfold Py.len. rewrite length_insert. reflexivity.
Qed.

Lemma set_current_cell_carries v :
  0 <= v <= max_memory_value ->
  keeps (World:=World) carries_tape_invariant (set_current_cell v).
Proof.
  intros Hv st [Hin [Hmp Hmem]].
  unfold set_current_cell, mbind, M_bind, attr, or_raise, assign. simpl.
  destruct (Py.setitem _ _ _) as [mem'|] eqn:E; simpl.
  - destruct (setitem_Forall _ _ _ _ _ E Hmem Hv) as [H1 H2].
    split; [|exact H2].
    split; [exact Hin|]. split; simpl; [rewrite H2; exact Hmp | exact H1].
  - split; [|reflexivity]. split; [exact Hin|]. split; assumption.
Qed.

Lemma instr_input_carries c :
  keeps (World:=World) carries_tape_invariant (instr_input c).
Proof.
  intros st Hinv. unfold instr_input.
  rewrite (bind_Return _ _ st (input_function (self st)) st) by reflexivity.
  pose proof keeps_next_instruction (World:=World) carries_tape_invariant as Hn.
  destruct (truthy (input_function (self st))).
  2:{ exact (keeps_bind carries_tape_invariant _ _
               (keeps_ret carries_tape_invariant tt) (fun _ => Hn) st Hinv). }
  destruct (input_function (self st)) as [| | |f| |] eqn:E;
    try (simpl; split; [exact Hinv|reflexivity]).
  destruct (f (attrs (self st)) (host st)) as [v w] eqn:F.
  assert (Heq : ((call_input (PyInput f) ≫= (fun v => set_current_cell v))
                   ≫= (fun _ => next_instruction)) st
                = (set_current_cell v ≫= (fun _ => next_instruction))
                    (with_host (fun _ => w) st)).
  { unfold mbind, M_bind. simpl call_input. rewrite F. reflexivity. }
  rewrite Heq.
  assert (Hv : 0 <= v <= max_memory_value).
  { destruct Hinv as [Hin _]. specialize (Hin f E (attrs (self st)) (host st)).
    rewrite F in Hin. exact Hin. }
  assert (Hinv' : tape_invariant (with_host (fun _ => w) st)).
  { destruct Hinv as [Hin Ht]. split; simpl; assumption. }
  exact (keeps_bind carries_tape_invariant (set_current_cell v)
           (fun _ => next_instruction)
           (set_current_cell_carries v Hv) (fun _ => Hn)
           (with_host (fun _ => w) st) Hinv').
Qed.

Lemma instr_inc_memory_pointer_carries c :
  keeps (World:=World) carries_tape_invariant (instr_inc_memory_pointer c).
Proof.
  intros st [Hin [Hmp Hmem]].
  unfold instr_inc_memory_pointer, next_instruction, mbind, M_bind, attr,
    assign, mret, M_ret. simpl.
  destruct (Z.ltb_spec (memory_pointer (attrs (self st)))
              (Py.len (memory (attrs (self st))) - 1));
    simpl; (split; [|reflexivity]); (split; [exact Hin|]); split; simpl;
    try assumption; lia.
Qed.

Lemma instr_dec_memory_pointer_carries c :
  keeps (World:=World) carries_tape_invariant (instr_dec_memory_pointer c).
Proof.
  intros st [Hin [Hmp Hmem]].
  unfold instr_dec_memory_pointer, next_instruction, mbind, M_bind, attr,
    assign, mret, M_ret. simpl.
  destruct (Z.ltb_spec (memory_pointer (attrs (self st)) - 1) 0);
    simpl; (split; [|reflexivity]); (split; [exact Hin|]); split; simpl;
    try assumption; lia.
Qed.

Lemma instr_inc_memory_carries c :
  keeps (World:=World) carries_tape_invariant (instr_inc_memory c).
Proof.
  intros st Hinv. unfold instr_inc_memory.
  pose proof keeps_next_instruction (World:=World) carries_tape_invariant as Hn.
  destruct (Py.getitem (memory (attrs (self st)))
              (memory_pointer (attrs (self st)))) as [v|] eqn:G.
  2:{ rewrite (bind_Raise _ _ st IndexError st)
        by (apply current_cell_out_of_range; exact G).
      split; [exact Hinv|reflexivity]. }
  pose proof (current_cell_eq st v G) as Hc.
  rewrite (bind_Return _ _ st v st Hc).
  assert (Hv : 0 <= v <= max_memory_value).
  { destruct Hinv as [_ [_ Hmem]]. exact (getitem_Forall _ _ _ _ G Hmem). }
  destruct (Z.ltb_spec v max_memory_value).
  - rewrite (bind_bind_Return _ _ _ st v st Hc).
    refine (keeps_bind carries_tape_invariant _ _
              (set_current_cell_carries (v + 1) _) (fun _ => Hn) st Hinv).
    lia.
  - refine (keeps_bind carries_tape_invariant _ _
              (set_current_cell_carries 0 _) (fun _ => Hn) st Hinv).
    unfold max_memory_value. lia.
Qed.

Lemma instr_dec_memory_carries c :
  keeps (World:=World) carries_tape_invariant (instr_dec_memory c).
Proof.
  intros st Hinv. unfold instr_dec_memory.
  pose proof keeps_next_instruction (World:=World) carries_tape_invariant as Hn.
  destruct (Py.getitem (memory (attrs (self st)))
              (memory_pointer (attrs (self st)))) as [v|] eqn:G.
  2:{ rewrite (bind_Raise _ _ st IndexError st)
        by (apply current_cell_out_of_range; exact G).
      split; [exact Hinv|reflexivity]. }
  pose proof (current_cell_eq st v G) as Hc.
  rewrite (bind_Return _ _ st v st Hc).
  assert (Hv : 0 <= v <= max_memory_value).
  { destruct Hinv as [_ [_ Hmem]]. exact (getitem_Forall _ _ _ _ G Hmem). }
  rewrite Z.gtb_ltb.
  destruct (Z.ltb_spec 0 v).
  - rewrite (bind_bind_Return _ _ _ st v st Hc).
    refine (keeps_bind carries_tape_invariant _ _
              (set_current_cell_carries (v - 1) _) (fun _ => Hn) st Hinv).
    lia.
  - refine (keeps_bind carries_tape_invariant _ _
              (set_current_cell_carries max_memory_value _) (fun _ => Hn)
              st Hinv).
    unfold max_memory_value. lia.
Qed.

Lemma execute_instruction_carries c :
  keeps (World:=World) carries_tape_invariant (execute_instruction c).
Proof.
  apply keeps_execute_instruction; [exact _|]. intros h.
  apply keeps_dispatch; try exact _.
  - apply instr_input_carries.
  - apply instr_inc_memory_pointer_carries.
  - apply instr_dec_memory_pointer_carries.
  - apply instr_inc_memory_carries.
  - apply instr_dec_memory_carries.
  - intros _. apply keeps_instr_return; [exact _|].
    intros v st H. split; [exact H|reflexivity].
Qed.

Lemma execute_instruction_same_cycle c :
  keeps (World:=World) same_cycle (execute_instruction c).
Proof.
  assert (Hf : forall (f : Machine -> Machine),
             (forall m, cycle_count (f m) = cycle_count m) ->
             (forall m, source (f m) = source m) ->
             forall st : State World, same_cycle st (with_attrs f st)).
  { intros f H1 H2 st. repeat split; simpl; auto. }
  apply keeps_execute_instruction; [exact _|]. intros h.
  apply keeps_dispatch; try exact _.
  - apply keeps_instr_input; [exact _|intros; apply Hf; reflexivity].
  - apply keeps_instr_inc_memory_pointer;
      [exact _|intros; apply Hf; reflexivity].
  - apply keeps_instr_dec_memory_pointer;
      [exact _|intros; apply Hf; reflexivity].
  - apply keeps_instr_inc_memory; [exact _|intros; apply Hf; reflexivity].
  - apply keeps_instr_dec_memory; [exact _|intros; apply Hf; reflexivity].
  - intros _. apply keeps_instr_return; [exact _|].
    intros; apply Hf; reflexivity.
Qed.

(** Apart from ["@"], no instruction touches the halt flag. *)
Lemma execute_instruction_same_need_to_exit c :
  c <> "@"%char ->
  keeps (World:=World) same_need_to_exit (execute_instruction c).
Proof.
  intros Hc.
  apply keeps_execute_instruction; [exact _|]. intros h.
  apply keeps_dispatch; try exact _.
  - apply keeps_instr_input; [exact _|intros; reflexivity].
  - apply keeps_instr_inc_memory_pointer; [exact _|intros; reflexivity].
  - apply keeps_instr_dec_memory_pointer; [exact _|intros; reflexivity].
  - apply keeps_instr_inc_memory; [exact _|intros; reflexivity].
  - apply keeps_instr_dec_memory; [exact _|intros; reflexivity].
  - intros ->. congruence.
Qed.

End FrameInstances.

(** *** The instructions, one at a time *)

Section Instructions.

Context {World : Type}.
Implicit Types (st : State World) (c instruction : ascii).

(** Unfold the monad down to functions on states. *)
Ltac unmonad :=
  unfold stack_push, stack_pop, stack_is_empty, current_cell,
    set_current_cell, next_instruction;
  unfold mbind, M_bind, mret, M_ret, attr, config, assign, raise, or_raise;
  simpl.

Lemma stack_pop_empty st :
  stack (attrs (self st)) = [] -> stack_pop st = (Raise IndexError, st).
Proof. intros H. unmonad. rewrite H. reflexivity. Qed.

Lemma stack_pop_push st s addr :
  stack (attrs (self st)) = Stack.push addr s ->
  stack_pop st = (Return addr, with_attrs (set_stack s) st).
Proof. intros H. unmonad. rewrite H, pop_push. reflexivity. Qed.

(** One turn of the loop of [run]. *)
Lemma run_step fuel st c :
  about_to_execute st c ->
  run (S fuel) st =
    (execute_instruction c;;
     count ← attr cycle_count;
     assign (set_cycle_count (count + 1));;
     run fuel) st.
Proof.
  intros (Hlen & Hc & Hexit & limit & Hlimit & Hcount).
  simpl run.
  unfold mbind, M_bind, attr, config, cycle_limit_reached, mret, M_ret,
    or_raise, raise.
  cbv beta. rewrite Hexit.
  replace (instruction_pointer (attrs (self st))
           <? Py.len (source (attrs (self st)))) with true by (symmetry; lia).
  cbn [andb negb]. cbv beta iota. rewrite Hlimit.
  replace (negb (limit =? 0) && (cycle_count (attrs (self st)) >=? limit))
    with false.
  2:{ symmetry. destruct Hcount as [->|Hlt]; [reflexivity|].
      rewrite Z.geb_leb. replace (limit <=? _) with false by (symmetry; lia).
      apply andb_false_r. }
  rewrite Hc. reflexivity.
Qed.

Lemma run_raises fuel st c e st' :
  about_to_execute st c ->
  execute_instruction c st = (Raise e, st') ->
  run (S fuel) st = (Raise e, st').
Proof.
  intros Hrun Hex. rewrite (run_step fuel st c Hrun).
  apply bind_Raise. exact Hex.
Qed.

Lemma execute_raises st c h e st' :
  instruction_dict c = Some h ->
  h c st = (Raise e, st') ->
  execute_instruction c st = (Raise e, st').
Proof.
  intros Hd Hh. unfold execute_instruction. rewrite Hd.
  rewrite (bind_Return _ _ st h st) by reflexivity.
  apply bind_Raise. exact Hh.
Qed.

Lemma execute_Return st c h st' :
  instruction_dict c = Some h ->
  h c st = (Return tt, st') ->
  execute_instruction c st =
    (hook ← config on_execute;
     if truthy hook then call_trace hook c else mret tt) st'.
Proof.
  intros Hd Hh. unfold execute_instruction. rewrite Hd.
  rewrite (bind_Return _ _ st h st) by reflexivity.
  rewrite (bind_Return _ _ st tt st' Hh). reflexivity.
Qed.

Lemma trace_hook_keeps R `{!Frame R} c :
  keeps (World:=World) R
    (hook ← config on_execute;
     if truthy hook then call_trace hook c else mret tt).
Proof. keeps_auto. Qed.

(** The characters with a handler are those of the alphabet. *)
Lemma instruction_dict_alphabet c :
  match instruction_dict (World:=World) c with
  | Some _ => true
  | None => false
  end = existsb (Ascii.eqb c) alphabet.
Proof.
  destruct c as [[] [] [] [] [] [] [] []]; vm_compute; reflexivity.
Qed.

Lemma letter_handler c :
  Py.ord "a" <= Py.ord c <= Py.ord "z" ->
  instruction_dict (World:=World) c = Some instr_function_call.
Proof.
  intros Hc. unfold instruction_dict.
  repeat match goal with
    | |- context [Ascii.eqb c ?x] =>
        destruct (Ascii.eqb_spec c x) as [->|_];
        [exfalso; vm_compute in Hc; destruct Hc as [H1 H2];
         first [apply H1; reflexivity | apply H2; reflexivity]|]
    end.
  replace (Py.ord "a" <=? Py.ord c) with true by (symmetry; lia).
  replace (Py.ord c <? Py.ord "z" + 1) with true by (symmetry; lia).
  reflexivity.
Qed.

(** The scan of [skip_to_loop_end], one pass at a time. *)
Lemma skip_done fuel cnt st :
  cnt <= 0 -> skip_to_loop_end_while fuel cnt st = (Return tt, st).
Proof.
  intros Hcnt.
  destruct fuel; simpl; unfold mbind, M_bind, attr; simpl;
    rewrite Z.gtb_ltb; replace (0 <? cnt) with false by (symmetry; lia);
    reflexivity.
Qed.

Lemma skip_pass fuel cnt st :
  0 < cnt ->
  instruction_pointer (attrs (self st)) < Py.len (source (attrs (self st))) ->
  skip_to_loop_end_while (S fuel) cnt st =
    let st' :=
      with_attrs
        (fun m => set_instruction_pointer (instruction_pointer m + 1) m) st in
    match Py.getitem (source (attrs (self st)))
            (instruction_pointer (attrs (self st)) + 1) with
    | None => (Raise IndexError, st')
    | Some instruction =>
        if Ascii.eqb instruction "[" then
          skip_to_loop_end_while fuel (cnt + 1) st'
        else if Ascii.eqb instruction "]" then
          skip_to_loop_end_while fuel (cnt - 1) st'
        else skip_to_loop_end_while fuel cnt st'
    end.
Proof.
  intros Hcnt Hip. simpl.
  unfold mbind, M_bind, attr, next_instruction, assign, or_raise, mret, M_ret,
    raise.
  simpl. rewrite Z.gtb_ltb.
  replace (0 <? cnt) with true by (symmetry; lia).
  replace (instruction_pointer (attrs (self st))
           <? Py.len (source (attrs (self st)))) with true by (symmetry; lia).
  simpl.
  destruct (Py.getitem _ _) as [i|]; [|reflexivity].
  destruct (Ascii.eqb i "["); [reflexivity|].
  destruct (Ascii.eqb i "]"); reflexivity.
Qed.

(** Two results that differ in how the instruction pointer is written. *)
Ltac same_state :=
  f_equal; unfold with_attrs, set_instruction_pointer; simpl;
  do 3 f_equal; lia.

(** With a matching bracket ahead, the scan stops on it. *)
Lemma skip_closes rest :
  forall depth d fuel st,
    closing_distance depth rest = Some d ->
    -1 <= instruction_pointer (attrs (self st)) ->
    drop (Z.to_nat (instruction_pointer (attrs (self st)) + 1))
      (source (attrs (self st))) = rest ->
    (d < fuel)%nat ->
    skip_to_loop_end_while fuel (Z.of_nat depth + 1) st =
      (Return tt,
       with_attrs
         (set_instruction_pointer
            (instruction_pointer (attrs (self st)) + 1 + Z.of_nat d)) st).
Proof.
  induction rest as [|c rest IH]; intros depth d fuel st Hd Hip Hdrop Hfuel;
    [discriminate|].
  destruct fuel as [|fuel]; [lia|].
  apply drop_cons_inv in Hdrop as (Hc & Hrest & Hlen).
  rewrite skip_pass by (unfold Py.len; lia).
  rewrite getitem_in_range by (unfold Py.len; lia).
  rewrite Hc. cbv zeta.
  set (st' := with_attrs
                (fun m => set_instruction_pointer (instruction_pointer m + 1) m)
                st).
  assert (Hrest' :
            drop (Z.to_nat (instruction_pointer (attrs (self st')) + 1))
              (source (attrs (self st'))) = rest).
  { simpl. rewrite <- Hrest. f_equal. lia. }
  assert (Hip' : -1 <= instruction_pointer (attrs (self st')))
    by (simpl; lia).
  assert (Hgo : forall depth' d',
            closing_distance depth' rest = Some d' -> d = S d' ->
            skip_to_loop_end_while fuel (Z.of_nat depth' + 1) st' =
              (Return tt,
               with_attrs
                 (set_instruction_pointer
                    (instruction_pointer (attrs (self st)) + 1 + Z.of_nat d))
                 st)).
  { intros depth' d' Hd' ->.
    rewrite (IH depth' d' fuel st' Hd' Hip' Hrest') by lia.
    unfold st'. same_state. }
  simpl in Hd.
  destruct (Ascii.eqb c "["); [|destruct (Ascii.eqb c "]")].
  - destruct (closing_distance (S depth) rest) as [d'|] eqn:E;
      [|discriminate].
    injection Hd as <-.
    replace (Z.of_nat depth + 1 + 1) with (Z.of_nat (S depth) + 1) by lia.
    exact (Hgo _ _ E eq_refl).
  - destruct depth as [|depth].
    + injection Hd as <-. rewrite skip_done by lia.
      unfold st'. same_state.
    + destruct (closing_distance depth rest) as [d'|] eqn:E; [|discriminate].
      injection Hd as <-.
      replace (Z.of_nat (S depth) + 1 - 1) with (Z.of_nat depth + 1) by lia.
      exact (Hgo _ _ E eq_refl).
  - destruct (closing_distance depth rest) as [d'|] eqn:E; [|discriminate].
    injection Hd as <-. exact (Hgo _ _ E eq_refl).
Qed.

(** Without one, the scan reads [source[len(source)]]. *)
Lemma skip_runs_off rest :
  forall depth fuel st,
    closing_distance depth rest = None ->
    -1 <= instruction_pointer (attrs (self st))
       < Py.len (source (attrs (self st))) ->
    drop (Z.to_nat (instruction_pointer (attrs (self st)) + 1))
      (source (attrs (self st))) = rest ->
    (length rest < fuel)%nat ->
    skip_to_loop_end_while fuel (Z.of_nat depth + 1) st =
      (Raise IndexError,
       with_attrs
         (set_instruction_pointer (Py.len (source (attrs (self st))))) st).
Proof.
  induction rest as [|c rest IH]; intros depth fuel st Hd Hip Hdrop Hfuel;
    (destruct fuel as [|fuel]; [simpl in Hfuel; lia|]);
    rewrite skip_pass by lia.
  - apply drop_nil_inv in Hdrop.
    rewrite getitem_past_end by (unfold Py.len; lia).
    cbv zeta. unfold Py.len in *. same_state.
  - apply drop_cons_inv in Hdrop as (Hc & Hrest & Hlen).
    rewrite getitem_in_range by (unfold Py.len; lia).
    rewrite Hc. cbv zeta.
    set (st' := with_attrs
                  (fun m =>
                     set_instruction_pointer (instruction_pointer m + 1) m)
                  st).
    assert (Hgo : forall depth',
              closing_distance depth' rest = None ->
              skip_to_loop_end_while fuel (Z.of_nat depth' + 1) st' =
                (Raise IndexError,
                 with_attrs
                   (set_instruction_pointer
                      (Py.len (source (attrs (self st))))) st)).
    { intros depth' Hd'.
      rewrite (IH depth' fuel st' Hd').
      - reflexivity.
      - simpl. unfold Py.len. lia.
      - simpl. rewrite <- Hrest. f_equal. lia.
      - simpl in Hfuel. lia. }
    simpl in Hd.
    destruct (Ascii.eqb c "["); [|destruct (Ascii.eqb c "]")].
    + destruct (closing_distance (S depth) rest) eqn:E; [discriminate|].
      replace (Z.of_nat depth + 1 + 1) with (Z.of_nat (S depth) + 1) by lia.
      exact (Hgo _ E).
    + destruct depth as [|depth]; [discriminate|].
      destruct (closing_distance depth rest) eqn:E; [discriminate|].
      replace (Z.of_nat (S depth) + 1 - 1) with (Z.of_nat depth + 1) by lia.
      exact (Hgo _ E).
    + destruct (closing_distance depth rest) eqn:E; [discriminate|].
      exact (Hgo _ E).
Qed.

Lemma skip_to_loop_end_eq st :
  skip_to_loop_end st =
    skip_to_loop_end_while
      (Z.to_nat (Py.len (source (attrs (self st)))
                 - instruction_pointer (attrs (self st))))
      (Z.of_nat 0 + 1) st.
Proof. reflexivity. Qed.

(** C1. Executing ["["] on a zero cell, with the matching ["]"] at [close]
    (where the nesting depth, counted from 1, first returns to 0), leaves
    the instruction pointer one past [close]; on a non-zero cell it pushes
    its own position and moves the instruction pointer on by one.  Nothing
    else, the tape and its pointer included, changes. *)
Theorem loop_start_skips_or_enters st c :
  let m := attrs (self st) in
  0 <= instruction_pointer m ->
  instruction_dict (World:=World) "[" = Some instr_loop_start /\
  (forall close,
     Py.getitem (memory m) (memory_pointer m) = Some 0 ->
     matching_bracket (source m) (instruction_pointer m) = Some close ->
     instruction_pointer m < close /\
     Py.getitem (source m) close = Some "]"%char /\
     depth_at (source m) (instruction_pointer m) close = 0 /\
     (forall k, instruction_pointer m <= k < close ->
                0 < depth_at (source m) (instruction_pointer m) k) /\
     instr_loop_start c st =
       (Return tt, with_attrs (set_instruction_pointer (close + 1)) st)) /\
  (forall v,
     Py.getitem (memory m) (memory_pointer m) = Some v -> v <> 0 ->
     instr_loop_start c st =
       (Return tt,
        with_attrs
          (fun m =>
             set_instruction_pointer (instruction_pointer m + 1)
               (set_stack (Stack.push (instruction_pointer m) (stack m)) m))
          st)).
Proof.
  intros m Hip. split; [reflexivity|]. split.
  - intros close Hcell Hclose.
    destruct (matching_bracket_spec _ _ _ Hip Hclose) as (Hr & Hb & H0 & Hpos).
    split; [lia|]. split; [exact Hb|]. split; [exact H0|].
    split; [exact Hpos|].
    unfold instr_loop_start.
    rewrite (bind_Return _ _ _ _ _ (current_cell_eq st 0 Hcell)).
    simpl Z.eqb. cbv iota.
    unfold matching_bracket in Hclose. fold m in Hr.
    destruct (closing_distance 0
                (drop (Z.to_nat (instruction_pointer m + 1)) (source m)))
      as [d|] eqn:E; [|discriminate].
    injection Hclose as <-.
    assert (Hskip : skip_to_loop_end st =
              (Return tt,
               with_attrs
                 (set_instruction_pointer
                    (instruction_pointer m + 1 + Z.of_nat d)) st)).
    { rewrite skip_to_loop_end_eq.
      apply (skip_closes _ 0%nat d _ st E); [fold m; lia|reflexivity|].
      fold m. lia. }
    rewrite (bind_Return _ _ _ _ _ Hskip). reflexivity.
  - intros v Hcell Hv. unfold instr_loop_start.
    rewrite (bind_Return _ _ _ _ _ (current_cell_eq st v Hcell)).
    replace (v =? 0) with false by (symmetry; lia).
    reflexivity.
Qed.

(** C10. Executing ["["] on a zero cell with no matching ["]"] ahead walks
    the instruction pointer to [len(source)] and reads the source there:
    [IndexError], which leaves [run] instead of a clean stop at the end of
    the source. *)
Theorem loop_start_unmatched_raises st c :
  let m := attrs (self st) in
  let st' := with_attrs (set_instruction_pointer (Py.len (source m))) st in
  0 <= instruction_pointer m < Py.len (source m) ->
  Py.getitem (memory m) (memory_pointer m) = Some 0 ->
  matching_bracket (source m) (instruction_pointer m) = None ->
  Py.getitem (source m) (instruction_pointer (attrs (self st'))) = None /\
  instr_loop_start c st = (Raise IndexError, st') /\
  execute_instruction "[" st = (Raise IndexError, st') /\
  (forall fuel, about_to_execute st "[" ->
                run (S fuel) st = (Raise IndexError, st')).
Proof.
  intros m st' Hip Hcell Hnone.
  assert (Hh : forall i, instr_loop_start i st = (Raise IndexError, st')).
  { intros i. unfold instr_loop_start.
    rewrite (bind_Return _ _ _ _ _ (current_cell_eq st 0 Hcell)).
    simpl Z.eqb. cbv iota.
    unfold matching_bracket in Hnone.
    destruct (closing_distance 0
                (drop (Z.to_nat (instruction_pointer m + 1)) (source m)))
      as [d|] eqn:E; [discriminate|].
    apply bind_Raise. rewrite skip_to_loop_end_eq.
    apply (skip_runs_off _ 0%nat _ st E); [fold m; lia|reflexivity|].
    rewrite length_drop. fold m. unfold Py.len in *. lia. }
  assert (He : execute_instruction "[" st = (Raise IndexError, st'))
    by (apply (execute_raises st "[" instr_loop_start);
        [reflexivity|apply Hh]).
  split; [apply getitem_past_end; simpl; lia|].
  split; [apply Hh|]. split; [exact He|].
  intros fuel Hrun. exact (run_raises fuel st "[" _ _ Hrun He).
Qed.

(** C2. Executing ["]"] pops the control stack first: on an empty stack the
    pop raises [IndexError], nothing has changed, and the exception leaves
    [run]; otherwise the popped address becomes the instruction pointer when
    the current cell is not zero, and is dropped, with the instruction
    pointer moved on by one, when it is zero. *)
Theorem loop_end_pops st c :
  instruction_dict (World:=World) "]" = Some instr_loop_end /\
  (stack (attrs (self st)) = [] ->
   instr_loop_end c st = (Raise IndexError, st) /\
   forall fuel, about_to_execute st "]" ->
                run (S fuel) st = (Raise IndexError, st)) /\
  (forall s addr v,
     stack (attrs (self st)) = Stack.push addr s ->
     Py.getitem (memory (attrs (self st))) (memory_pointer (attrs (self st)))
       = Some v ->
     instr_loop_end c st =
       (Return tt,
        with_attrs
          (fun m =>
             set_instruction_pointer
               (if v =? 0 then instruction_pointer m + 1 else addr)
               (set_stack s m))
          st)).
Proof.
  assert (Hempty : forall i, stack (attrs (self st)) = [] ->
                             instr_loop_end i st = (Raise IndexError, st)).
  { intros i Hs. unfold instr_loop_end.
    apply bind_Raise, stack_pop_empty, Hs. }
  split; [reflexivity|]. split.
  - intros Hs. split; [apply Hempty, Hs|].
    intros fuel Hrun. apply (run_raises fuel st "]" _ _ Hrun).
    apply (execute_raises st "]" instr_loop_end); [reflexivity|].
    apply Hempty, Hs.
  - intros s addr v Hs Hv. unfold instr_loop_end.
    rewrite (bind_Return _ _ _ _ _ (stack_pop_push _ _ _ Hs)).
    rewrite (bind_Return _ _ _ _ _
               (current_cell_eq (with_attrs (set_stack s) st) v Hv)).
    destruct (v =? 0); reflexivity.
Qed.

(** C3. A letter [c] calls function number [c - "a"]: when that many
    functions are declared, the address after the call is pushed and the
    instruction pointer becomes the start offset of the function; when they
    are not, only the instruction pointer moves, by one. *)
Theorem function_call_or_skip st c :
  Py.ord "a" <= Py.ord c <= Py.ord "z" ->
  let function_no := Py.ord c - Py.ord "a" in
  let fs := functions (attrs (self st)) in
  instruction_dict (World:=World) c = Some instr_function_call /\
  (function_no < Py.len fs ->
   exists target,
     fs !! Z.to_nat function_no = Some target /\
     instr_function_call c st =
       (Return tt,
        with_attrs
          (fun m =>
             set_instruction_pointer target
               (set_stack (Stack.push (instruction_pointer m + 1) (stack m))
                  m))
          st)) /\
  (Py.len fs <= function_no ->
   instr_function_call c st =
     (Return tt,
      with_attrs (fun m => set_instruction_pointer (instruction_pointer m + 1) m)
        st)).
Proof.
  intros Hc function_no fs. split; [apply letter_handler, Hc|].
  assert (Hno : 0 <= function_no) by (unfold function_no; lia).
  split.
  - intros Hlt.
    destruct (fs !! Z.to_nat function_no) as [target|] eqn:E.
    2:{ apply lookup_ge_None in E. unfold Py.len in Hlt. lia. }
    exists target. split; [reflexivity|].
    unfold instr_function_call. fold function_no.
    unfold mbind, M_bind, attr, stack_push, assign, or_raise, mret, M_ret.
    simpl. fold fs.
    replace (function_no <? Py.len fs) with true by (symmetry; lia).
    rewrite getitem_in_range by lia. rewrite E. reflexivity.
  - intros Hge. unfold instr_function_call. fold function_no.
    unfold mbind, M_bind, attr, next_instruction, assign. simpl. fold fs.
    replace (function_no <? Py.len fs) with false by (symmetry; lia).
    reflexivity.
Qed.

(** C4. ["@"] on an empty control stack sets the halt flag and changes
    nothing else; on a non-empty one it pops an address into the instruction
    pointer and leaves the flag alone.  No other instruction, and no ["@"]
    on a non-empty stack, turns the flag on. *)
Theorem return_halts_or_returns st c :
  instruction_dict (World:=World) "@" = Some instr_return /\
  (stack (attrs (self st)) = [] ->
   instr_return c st = (Return tt, with_attrs (set_need_to_exit true) st)) /\
  (forall s addr,
     stack (attrs (self st)) = Stack.push addr s ->
     instr_return c st =
       (Return tt,
        with_attrs (fun m => set_instruction_pointer addr (set_stack s m)) st))
  /\
  (forall i,
     need_to_exit (attrs (self st)) = false ->
     need_to_exit (attrs (self (execute_instruction i st).2)) = true ->
     i = "@"%char /\ stack (attrs (self st)) = []).
Proof.
  assert (Hpop : forall i s addr,
            stack (attrs (self st)) = Stack.push addr s ->
            instr_return i st =
              (Return tt,
               with_attrs
                 (fun m => set_instruction_pointer addr (set_stack s m)) st)).
  { intros i s addr Hs. unfold instr_return, stack_is_empty.
    unfold mbind, M_bind, attr, mret, M_ret. simpl.
    rewrite Hs, is_empty_push, (stack_pop_push _ _ _ Hs).
    reflexivity. }
  split; [reflexivity|]. split; [|split].
  - intros Hs. unfold instr_return, stack_is_empty.
    unfold mbind, M_bind, attr, mret, M_ret. simpl.
    rewrite Hs. reflexivity.
  - intros s addr. apply Hpop.
  - intros i Hoff Hon.
    destruct (Ascii.eqb_spec i "@") as [->|Hi].
    + split; [reflexivity|].
      destruct (empty_or_push (stack (attrs (self st))))
        as [Hs|(s & addr & Hs)]; [exact Hs|].
      exfalso.
      rewrite (execute_Return st "@" instr_return _ eq_refl
                 (Hpop "@"%char s addr Hs)) in Hon.
      rewrite (trace_hook_keeps same_need_to_exit "@" _) in Hon.
      simpl in Hon. congruence.
    + rewrite (execute_instruction_same_need_to_exit i Hi st) in Hon.
      congruence.
Qed.

(** C8. A character outside the alphabet has no handler: dispatching it
    raises [KeyError], before anything is executed or counted, and the
    exception leaves [run] at once with the engine as it was.  The fault
    carries the offending character and nothing else: its source offset is
    not part of it. *)
Theorem unknown_instruction_raises st c :
  ~ In c alphabet ->
  instruction_dict (World:=World) c = None /\
  execute_instruction c st = (Raise (KeyError c), st) /\
  (forall fuel, about_to_execute st c ->
                run (S fuel) st = (Raise (KeyError c), st)).
Proof.
  intros Hc.
  assert (Hd : instruction_dict (World:=World) c = None).
  { pose proof (instruction_dict_alphabet c) as H.
    destruct (instruction_dict c); [|reflexivity].
    symmetry in H. apply existsb_exists in H as (x & Hx & Heq).
    apply Ascii.eqb_eq in Heq. subst x. contradiction. }
  assert (He : execute_instruction c st = (Raise (KeyError c), st)).
  { unfold execute_instruction. rewrite Hd. reflexivity. }
  split; [exact Hd|]. split; [exact He|].
  intros fuel Hrun. exact (run_raises fuel st c _ _ Hrun He).
Qed.

(** *** Construction *)

Lemma new_Interpreter_eq (src : list ascii)
    (limit inp out trace : pyobj World) :
  new_Interpreter src limit inp out trace =
    if delimiter_count src >? max_functions then Raise (NameError "functions")
    else
      Return
        (mkInterpreter
           (mkMachine src (offsets_after_delimiters src 0) Stack.init 0 0
              (replicate (Z.to_nat memory_size) 0) 0 false)
           limit inp out trace).
Proof.
  unfold new_Interpreter. rewrite find_functions_eq.
  destruct (delimiter_count src >? max_functions); reflexivity.
Qed.

(** C9. What construction does with the function count.  With more than
    26 function delimiters the [raise] of [find_functions] never raises the
    exception it names: its message reads [len(functions)] for
    [len(self.functions)], and the [NameError] of that unbound name is what
    reaches the caller.  With 26 or fewer, construction returns an engine
    whose function table lists, in source order, the offset immediately
    after each delimiter. *)
Theorem construction_checks_function_count (src : list ascii)
    (limit inp out trace : pyobj World) :
  (max_functions < delimiter_count src ->
   new_Interpreter src limit inp out trace = Raise (NameError "functions")) /\
  (delimiter_count src <= max_functions ->
   exists i : Interpreter World,
     new_Interpreter src limit inp out trace = Return i /\
     source (attrs i) = src /\
     functions (attrs i) = offsets_after_delimiters src 0 /\
     Py.len (functions (attrs i)) = delimiter_count src).
Proof.
  rewrite new_Interpreter_eq. split; intros H.
  - replace (delimiter_count src >? max_functions) with true
      by (symmetry; rewrite Z.gtb_ltb; lia).
    reflexivity.
  - replace (delimiter_count src >? max_functions) with false
      by (symmetry; rewrite Z.gtb_ltb; lia).
    eexists. split; [reflexivity|]. simpl.
    split; [reflexivity|]. split; [reflexivity|]. apply offsets_length.
Qed.

(** A fresh engine has a tape of [memory_size] zero cells with the pointer
    on the first: the tape invariant holds from the start. *)
Lemma new_Interpreter_tape_invariant src limit inp out trace
    (i : Interpreter World) (w : World) :
  new_Interpreter src limit inp out trace = Return i ->
  input_ok inp ->
  tape_invariant (start i w) /\ Py.len (memory (attrs i)) = memory_size.
Proof.
  rewrite new_Interpreter_eq.
  destruct (_ >? _); [discriminate|]. intros H Hinp.
  apply (f_equal (fun o => match o with Return x => x | _ => i end)) in H.
  cbv beta iota in H. rewrite <- H.
  unfold tape_invariant, tape_ok, start.
  cbn [self attrs memory memory_pointer input_function].
  assert (Hlen : Py.len (replicate (Z.to_nat memory_size) 0) = memory_size).
  { unfold Py.len. rewrite length_replicate. unfold memory_size. lia. }
  rewrite Hlen. split; [|reflexivity]. split; [exact Hinp|]. split.
  - unfold memory_size. lia.
  - apply Forall_replicate. unfold max_memory_value. lia.
Qed.

(** *** The loop of [run] *)

Lemma keeps_cycle_limit_reached R `{!Frame R} (limit : pyobj World) count :
  keeps R (cycle_limit_reached limit count).
Proof. destruct limit; first [apply keeps_ret | apply keeps_raise]; exact _. Qed.

Lemma keeps_run R `{!Frame R} :
  (forall c, keeps R (execute_instruction c)) ->
  (forall v st, R st (with_attrs (set_cycle_count v) st)) ->
  forall fuel, keeps R (run fuel).
Proof.
  intros Hexec Hcount fuel.
  pose proof (keeps_cycle_limit_reached R) as Hl.
  induction fuel as [|fuel IH]; simpl; keeps_auto;
    apply keeps_assign, Hcount.
Qed.

(** C7. Under the contract that the input callback returns bytes, the tape
    invariant (the pointer selects a cell, every cell is a byte) holds after
    every instruction, and so all along a run, on a tape that keeps its
    capacity; the pointer stops at either end of the tape and the cells wrap
    around at 0 and 255. *)
Theorem tape_invariant_preserved st c :
  tape_invariant st ->
  let m := attrs (self st) in
  let capacity := Py.len (memory m) in
  (tape_invariant (execute_instruction c st).2 /\
   Py.len (memory (attrs (self (execute_instruction c st).2))) = capacity) /\
  (forall fuel,
     tape_invariant (run fuel st).2 /\
     Py.len (memory (attrs (self (run fuel st).2))) = capacity) /\
  memory_pointer (attrs (self (instr_inc_memory_pointer c st).2))
    = Z.min (memory_pointer m + 1) (capacity - 1) /\
  memory_pointer (attrs (self (instr_dec_memory_pointer c st).2))
    = Z.max (memory_pointer m - 1) 0 /\
  (exists v,
     memory m !! Z.to_nat (memory_pointer m) = Some v /\
     memory (attrs (self (instr_inc_memory c st).2))
       = <[Z.to_nat (memory_pointer m) := (v + 1) mod 256]> (memory m) /\
     memory (attrs (self (instr_dec_memory c st).2))
       = <[Z.to_nat (memory_pointer m) := (v - 1) mod 256]> (memory m)).
Proof.
  intros Hinv m capacity.
  split; [exact (execute_instruction_carries c st Hinv)|].
  split.
  { intros fuel.
    refine (keeps_run carries_tape_invariant execute_instruction_carries _
              fuel st Hinv).
    intros v st' H. split; [exact H|reflexivity]. }
  subst capacity.
  destruct Hinv as [_ [Hmp Hmem]]. subst m.
  set (mp := memory_pointer (attrs (self st))) in *.
  set (mem := memory (attrs (self st))) in *.
  split; [|split].
  - unfold instr_inc_memory_pointer, next_instruction, mbind, M_bind, attr,
      assign, mret, M_ret. simpl. fold mp mem.
    destruct (Z.ltb_spec mp (Py.len mem - 1)); simpl; fold mp; lia.
  - unfold instr_dec_memory_pointer, next_instruction, mbind, M_bind, attr,
      assign, mret, M_ret. simpl. fold mp.
    destruct (Z.ltb_spec (mp - 1) 0); simpl; lia.
  - destruct (mem !! Z.to_nat mp) as [v|] eqn:E.
    2:{ apply lookup_ge_None in E. unfold Py.len in Hmp. lia. }
    exists v. split; [reflexivity|].
    assert (G : Py.getitem mem mp = Some v)
      by (rewrite getitem_in_range by lia; exact E).
    assert (Hv : 0 <= v <= 255) by exact (getitem_Forall _ _ _ _ G Hmem).
    pose proof (current_cell_eq st v G) as Hc.
    assert (Hset : forall x,
              memory (attrs (self ((set_current_cell x;; next_instruction)
                                     st).2))
              = <[Z.to_nat mp := x]> mem).
    { intros x.
      unfold set_current_cell, next_instruction, mbind, M_bind, attr, assign,
        or_raise, mret, M_ret. simpl. fold mp mem.
      rewrite setitem_in_range by lia. reflexivity. }
    split.
    + unfold instr_inc_memory. rewrite (bind_Return _ _ _ _ _ Hc).
      unfold max_memory_value. destruct (Z.ltb_spec v 255).
      * rewrite (bind_bind_Return _ _ _ _ _ _ Hc). rewrite Hset.
        rewrite Z.mod_small by lia. reflexivity.
      * rewrite Hset. replace v with 255 by lia. reflexivity.
    + unfold instr_dec_memory. rewrite (bind_Return _ _ _ _ _ Hc).
      unfold max_memory_value. rewrite Z.gtb_ltb. destruct (Z.ltb_spec 0 v).
      * rewrite (bind_bind_Return _ _ _ _ _ _ Hc). rewrite Hset.
        rewrite Z.mod_small by lia. reflexivity.
      * rewrite Hset. replace v with 0 by lia. reflexivity.
Qed.

(** The ways out of the loop of [run]. *)
Lemma run_stops fuel st :
  (instruction_pointer (attrs (self st)) <? Py.len (source (attrs (self st))))
  && negb (need_to_exit (attrs (self st))) = false ->
  run fuel st = (Return tt, st).
Proof.
  intros H. destruct fuel; simpl run; unfold mbind, M_bind, attr; cbv beta;
    rewrite H; reflexivity.
Qed.

Lemma run_limited fuel st limit :
  (instruction_pointer (attrs (self st)) <? Py.len (source (attrs (self st))))
  && negb (need_to_exit (attrs (self st))) = true ->
  cycle_limit (self st) = PyInt limit ->
  limit <> 0 -> limit <= cycle_count (attrs (self st)) ->
  run fuel st = print "Ending early due to cycle limit" st.
Proof.
  intros H Hlimit Hnz Hge.
  destruct fuel; simpl run;
    unfold mbind, M_bind, attr, config, cycle_limit_reached, mret, M_ret;
    cbv beta; rewrite H; cbv beta iota; rewrite Hlimit, Z.geb_leb;
    replace (limit =? 0) with false by (symmetry; lia);
    replace (limit <=? cycle_count (attrs (self st))) with true
      by (symmetry; lia);
    reflexivity.
Qed.

Lemma run_no_fuel st limit :
  (instruction_pointer (attrs (self st)) <? Py.len (source (attrs (self st))))
  && negb (need_to_exit (attrs (self st))) = true ->
  cycle_limit (self st) = PyInt limit ->
  cycle_count (attrs (self st)) < limit ->
  run 0 st = (OutOfFuel, st).
Proof.
  intros H Hlimit Hlt. simpl run.
  unfold mbind, M_bind, attr, config, cycle_limit_reached, mret, M_ret.
  cbv beta. rewrite H. cbv beta iota. rewrite Hlimit, Z.geb_leb.
  replace (limit <=? cycle_count (attrs (self st))) with false
    by (symmetry; lia).
  rewrite andb_false_r. reflexivity.
Qed.

Lemma run_fetch_fails fuel st limit :
  (instruction_pointer (attrs (self st)) <? Py.len (source (attrs (self st))))
  && negb (need_to_exit (attrs (self st))) = true ->
  cycle_limit (self st) = PyInt limit ->
  cycle_count (attrs (self st)) < limit ->
  Py.getitem (source (attrs (self st)))
    (instruction_pointer (attrs (self st))) = None ->
  run (S fuel) st = (Raise IndexError, st).
Proof.
  intros H Hlimit Hlt Hnone. simpl run.
  unfold mbind, M_bind, attr, config, cycle_limit_reached, mret, M_ret,
    or_raise, raise.
  cbv beta. rewrite H. cbv beta iota. rewrite Hlimit, Z.geb_leb.
  replace (limit <=? cycle_count (attrs (self st))) with false
    by (symmetry; lia).
  rewrite andb_false_r, Hnone. reflexivity.
Qed.

(** The loop of [run] under a positive integer cycle limit. *)
Lemma run_bounded fuel :
  forall st limit,
    cycle_limit (self st) = PyInt limit ->
    0 < limit ->
    cycle_count (attrs (self st)) <= limit ->
    let r := run fuel st in
    cycle_count (attrs (self st)) <= cycle_count (attrs (self r.2)) <= limit /\
    ((Z.to_nat (limit - cycle_count (attrs (self st))) <= fuel)%nat ->
     r.1 <> OutOfFuel) /\
    (r.1 = Return tt -> exhausted r.2 \/ halted r.2 \/ cycle_limited r.2).
Proof.
  induction fuel as [|fuel IH]; intros st limit Hlimit Hpos Hcount r;
    subst r;
    (destruct ((instruction_pointer (attrs (self st))
                <? Py.len (source (attrs (self st))))
               && negb (need_to_exit (attrs (self st)))) eqn:Hloop;
     [|rewrite run_stops by exact Hloop; simpl;
       split; [lia|]; split; [discriminate|]; intros _;
       apply andb_false_iff in Hloop as [Hip|Hexit];
       [left; unfold exhausted; lia
       |right; left; unfold halted;
        destruct (need_to_exit (attrs (self st))); [reflexivity|discriminate]]]);
    (destruct (Z.leb_spec limit (cycle_count (attrs (self st)))) as [Hge|Hlt];
     [rewrite (run_limited _ st limit Hloop Hlimit) by lia; simpl;
      split; [lia|]; split; [discriminate|]; intros _;
      right; right; exists limit; simpl; repeat split; lia || assumption|]).
  - rewrite (run_no_fuel st limit Hloop Hlimit Hlt). simpl.
    split; [lia|]. split; [lia|discriminate].
  - destruct (Py.getitem (source (attrs (self st)))
                (instruction_pointer (attrs (self st)))) as [i|] eqn:Hi.
    2:{ rewrite (run_fetch_fails fuel st limit Hloop Hlimit Hlt Hi). simpl.
        split; [lia|]. split; discriminate. }
    assert (Hrun : about_to_execute st i).
    { apply andb_prop in Hloop as [Hip Hexit]. apply Z.ltb_lt in Hip.
      apply negb_true_iff in Hexit.
      repeat split; try assumption. exists limit. split; [assumption|lia]. }
    pose proof (run_step fuel st i Hrun) as E.
    pose proof (execute_instruction_same_cycle i st) as (Hc1 & Hc2 & Hc3).
    pose proof (total_execute_instruction i st) as Htot.
    unfold mbind at 1 in E. unfold M_bind at 1 in E.
    destruct (execute_instruction i st) as [[[]|e|] st1];
      simpl in Hc1, Hc2, Hc3, Htot; [| |congruence].
    2:{ rewrite E. simpl. rewrite Hc1. split; [lia|]. split; discriminate. }
    set (st2 := with_attrs
                  (set_cycle_count (cycle_count (attrs (self st1)) + 1))
                  st1).
    change (run (S fuel) st = run fuel st2) in E. rewrite E.
    assert (H2 : cycle_count (attrs (self st2))
                 = cycle_count (attrs (self st)) + 1)
      by (simpl; lia).
    destruct (IH st2 limit) as (Hb & Hf & Ht);
      [simpl; congruence | assumption | lia |].
    rewrite H2 in Hb, Hf.
    split; [lia|]. split; [|exact Ht].
    intros Hfuel. apply Hf. lia.
Qed.

(** C6. An engine constructed with a positive cycle limit [n] executes at
    most [n] instructions: however long [run] is followed, the cycle count
    stays within [n]; [n] turns of the loop are enough for [run] to come
    back, with an exception or in one of the terminal states (source
    exhausted, halted, cycle limit reached); and reaching the limit is a
    return, not an exception. *)
Theorem run_within_cycle_limit (src : list ascii) (n : Z)
    (inp out trace : pyobj World) (i : Interpreter World) (w : World)
    (fuel : nat) :
  0 < n ->
  new_Interpreter src (PyInt n) inp out trace = Return i ->
  let r := run fuel (start i w) in
  0 <= cycle_count (attrs (self r.2)) <= n /\
  ((Z.to_nat n <= fuel)%nat -> r.1 <> OutOfFuel) /\
  (r.1 = Return tt -> exhausted r.2 \/ halted r.2 \/ cycle_limited r.2) /\
  (forall st fuel',
     cycle_limited st ->
     instruction_pointer (attrs (self st)) < Py.len (source (attrs (self st)))
     -> need_to_exit (attrs (self st)) = false ->
     (run fuel' st).1 = Return tt).
Proof.
  intros Hn Hnew r.
  assert (Hi : cycle_limit i = PyInt n /\ cycle_count (attrs i) = 0).
  { rewrite new_Interpreter_eq in Hnew.
    destruct (_ >? _); [discriminate|].
    apply (f_equal (fun o => match o with Return x => x | _ => i end)) in Hnew.
    cbv beta iota in Hnew. rewrite <- Hnew. split; reflexivity. }
  destruct Hi as [Hlimit Hcount].
  destruct (run_bounded fuel (start i w) n) as (Hb & Hf & Ht);
    [exact Hlimit | exact Hn | simpl; lia |].
  change (cycle_count (attrs (self (start i w)))) with (cycle_count (attrs i))
    in Hb, Hf.
  rewrite Hcount in Hb, Hf. rewrite Z.sub_0_r in Hf.
  split; [exact Hb|]. split; [exact Hf|]. split; [exact Ht|].
  intros st fuel' (limit & Hl & Hnz & Hge) Hip Hexit.
  rewrite (run_limited fuel' st limit); [reflexivity| |assumption..].
  rewrite Hexit. replace (_ <? _) with true by (symmetry; lia). reflexivity.
Qed.

(** *** [clone] *)

(** Without overrides the copy is built from the same source with the
    default configuration. *)
Lemma clone_default (this : Interpreter World) :
  clone this None PyNone PyNone PyNone PyNone =
    new_Interpreter (source (attrs this)) (PyInt 0) PyNone PyNone PyNone.
Proof. reflexivity. Qed.

(** An override of the cycle limit reaches the constructor as the name of
    the parameter, in the position of the cycle limit. *)
Lemma clone_cycle_limit (this : Interpreter World) (n : Z) :
  clone this None (PyInt n) PyNone PyNone PyNone =
    new_Interpreter (source (attrs this)) (PyStr "cycle_limit") PyNone PyNone
      PyNone.
Proof. reflexivity. Qed.

(** An override of a callback alone lands, as its name, in the position of
    the cycle limit too. *)
Lemma clone_input_function (this : Interpreter World) f :
  clone this None PyNone (PyInput f) PyNone PyNone =
    new_Interpreter (source (attrs this)) (PyStr "input_function") PyNone
      PyNone PyNone.
Proof. reflexivity. Qed.

End Instructions.

(** ** The properties at work *)

(** *** The tests of the repository *)

Example test_output :
  run_test 100 "." (PyInt 0) PyNone log_output PyNone []
  = Some (Return tt, [0], [0; 0], 1, 1).
Proof. vm_compute. reflexivity. Qed.

Example test_pointer_changes :
  run_test 100 ">><<" (PyInt 0) PyNone PyNone log_memory_pointer []
  = Some (Return tt, [1; 2; 1; 0], [0; 0], 4, 4).
Proof. vm_compute. reflexivity. Qed.

Example test_memory_pointer_underflow :
  run_test 100 "<" (PyInt 0) PyNone PyNone log_memory_pointer []
  = Some (Return tt, [0], [0; 0], 1, 1).
Proof. vm_compute. reflexivity. Qed.

Example test_memory_changes :
  run_test 100 "+>+++-" (PyInt 0) PyNone PyNone PyNone tt
  = Some (Return tt, tt, [1; 2], 6, 6).
Proof. vm_compute. reflexivity. Qed.

Example test_loop_simple :
  run_test 100 "+++[>+<-]." (PyInt 0) PyNone PyNone log_instruction_pointer []
  = Some (Return tt,
          [1; 2; 3; 4; 5; 6; 7; 8; 3; 4; 5; 6; 7; 8; 3; 4; 5; 6; 7; 8; 9; 10],
          [0; 3], 22, 10).
Proof. vm_compute. reflexivity. Qed.

Example test_loop_skip_with_inner :
  run_test 100 "[+[.]]." (PyInt 100) PyNone PyNone log_instruction_pointer []
  = Some (Return tt, [6; 7], [0; 0], 2, 7).
Proof. vm_compute. reflexivity. Qed.

Example test_loop_with_inner :
  run_test 2000 "+[+[.+]]." (PyInt 2000) PyNone PyNone PyNone tt
  = Some (Return tt, tt, [0; 0], 1021, 9).
Proof. vm_compute. reflexivity. Qed.

Example test_input :
  run_test 100 ",>," (PyInt 0) queue_input PyNone PyNone [10; 20]
  = Some (Return tt, [], [10; 20], 3, 3).
Proof. vm_compute. reflexivity. Qed.

Example test_hello_world :
  run_test 1000
    "++++++++[>++++[>++>+++>+++>+<<<<-]>+>+>->>+[<]<-]>>.>---.+++++++..+++.>>.<-.<.+++.------.--------.>>+.>++."
    (PyInt 0) PyNone log_output PyNone []
  = Some (Return tt,
          [72; 101; 108; 108; 111; 32; 87; 111; 114; 108; 100; 33; 10],
          [0; 0], 969, 106).
Proof. vm_compute. reflexivity. Qed.

Example test_nested_function :
  run_test 100 "a@+b@+" (PyInt 0) PyNone PyNone PyNone tt
  = Some (Return tt, tt, [2; 0], 4, 6).
Proof. vm_compute. reflexivity. Qed.

Example test_empty_functions :
  run_test 100 "abcd@@@@+" (PyInt 0) PyNone PyNone PyNone tt
  = Some (Return tt, tt, [1; 0], 8, 9).
Proof. vm_compute. reflexivity. Qed.

Example test_function :
  run_test 100 "a@+" (PyInt 0) PyNone PyNone PyNone tt
  = Some (Return tt, tt, [1; 0], 2, 3).
Proof. vm_compute. reflexivity. Qed.

Example test_missing_function :
  run_test 100 "b@+" (PyInt 0) PyNone PyNone PyNone tt
  = Some (Return tt, tt, [0; 0], 2, 1).
Proof. vm_compute. reflexivity. Qed.

Example test_too_many_functions :
  new_Interpreter (World:=unit) too_many_functions (PyInt 0) PyNone PyNone
    PyNone
  = Raise (NameError "functions").
Proof. vm_compute. reflexivity. Qed.

(** ["+[]"] loops for ever; a cycle limit of 10 stops it after ten
    instructions, with a return. *)
Example test_cycle_limit :
  run_test 100 "+[]" (PyInt 10) PyNone PyNone PyNone tt
  = Some (Return tt, tt, [1; 0], 10, 2).
Proof. vm_compute. reflexivity. Qed.

(** *** [clone] with an override *)

(** C5. [Interpreter("+").clone(cycle_limit=5)] is an engine whose cycle
    limit is the string ["cycle_limit"], not 5: [clone] unpacks its
    dictionary of overrides with one star instead of two. *)
Theorem clone_override_becomes_key_name :
  cloned_cycle_limit "+" 5 = Return (PyStr "cycle_limit") /\
  cloned_cycle_limit "+" 5 <> Return (PyInt 5).
Proof. split; [vm_compute; reflexivity | vm_compute; discriminate]. Qed.

(** *** Instances on small programs *)

Lemma tiny_about_to_execute src ip cells stk c :
  (ip <? Py.len (list_ascii_of_string src)) = true ->
  Py.getitem (list_ascii_of_string src) ip = Some c ->
  about_to_execute (tiny src ip cells stk false) c.
Proof.
  intros Hip Hc. split; [apply Z.ltb_lt, Hip|]. split; [exact Hc|].
  split; [reflexivity|]. exists 0. split; [reflexivity|left; reflexivity].
Defined.

(** ["[+[.]]."] on a zero cell jumps from 0 to 6, one past the outer
    ["]"]; on a non-zero cell it enters the loop. *)
Lemma loop_start_skips_or_enters_witness :
  instr_loop_start "[" (tiny "[+[.]]." 0 [0; 0; 0] [] false)
    = (Return tt, tiny "[+[.]]." 6 [0; 0; 0] [] false) /\
  instr_loop_start "[" (tiny "[+[.]]." 0 [1; 0; 0] [] false)
    = (Return tt, tiny "[+[.]]." 1 [1; 0; 0] [0] false).
Proof.
  split.
  - destruct (loop_start_skips_or_enters
                (tiny "[+[.]]." 0 [0; 0; 0] [] false) "[") as (_ & Hskip & _);
      [simpl; lia|].
    destruct (Hskip 5) as (_ & _ & _ & _ & H); [reflexivity|reflexivity|].
    exact H.
  - destruct (loop_start_skips_or_enters
                (tiny "[+[.]]." 0 [1; 0; 0] [] false) "[") as (_ & _ & Henter);
      [simpl; lia|].
    apply (Henter 1); [reflexivity|lia].
Defined.

(** ["]"] alone raises; at the end of ["+[-]"] with the cell still at 1 it
    goes back to the ["["] at 1. *)
Lemma loop_end_pops_witness :
  run 1 (tiny "]" 0 [0; 0; 0] [] false)
    = (Raise IndexError, tiny "]" 0 [0; 0; 0] [] false) /\
  instr_loop_end "]" (tiny "+[-]" 3 [1; 0; 0] [1] false)
    = (Return tt, tiny "+[-]" 1 [1; 0; 0] [] false).
Proof.
  split.
  - destruct (loop_end_pops (tiny "]" 0 [0; 0; 0] [] false) "]")
      as (_ & Hempty & _).
    destruct Hempty as [_ Hrun]; [reflexivity|].
    apply Hrun. apply tiny_about_to_execute; reflexivity.
  - destruct (loop_end_pops (tiny "+[-]" 3 [1; 0; 0] [1] false) "]")
      as (_ & _ & Hpop).
    exact (Hpop [] 1 1 eq_refl eq_refl).
Defined.

(** In ["a@+"] the letter [a] calls the function at offset 2; in ["b@+"]
    the letter [b] has no function and is passed over. *)
Lemma function_call_or_skip_witness :
  instr_function_call "a" (tiny "a@+" 0 [0; 0; 0] [] false)
    = (Return tt, tiny "a@+" 2 [0; 0; 0] [1] false) /\
  instr_function_call "b" (tiny "b@+" 0 [0; 0; 0] [] false)
    = (Return tt, tiny "b@+" 1 [0; 0; 0] [] false).
Proof.
  split.
  - destruct (function_call_or_skip (tiny "a@+" 0 [0; 0; 0] [] false) "a")
      as (_ & Hcall & _); [vm_compute; split; discriminate|].
    destruct Hcall as (target & Htarget & H); [reflexivity|].
    injection Htarget as <-. exact H.
  - destruct (function_call_or_skip (tiny "b@+" 0 [0; 0; 0] [] false) "b")
      as (_ & _ & Hskip); [vm_compute; split; discriminate|].
    apply Hskip. vm_compute. discriminate.
Defined.

(** ["@"] with nothing to return to halts; with a return address it goes
    there; and the halt seen after an instruction came from such an ["@"]. *)
Lemma return_halts_or_returns_witness :
  instr_return "@" (tiny "a@@" 2 [0; 0; 0] [] false)
    = (Return tt, tiny "a@@" 2 [0; 0; 0] [] true) /\
  instr_return "@" (tiny "a@@" 2 [0; 0; 0] [1] false)
    = (Return tt, tiny "a@@" 1 [0; 0; 0] [] false) /\
  stack (attrs (self (tiny "a@@" 2 [0; 0; 0] [] false))) = [].
Proof.
  destruct (return_halts_or_returns (tiny "a@@" 2 [0; 0; 0] [] false) "@")
    as (_ & Hhalt & _ & Honly).
  destruct (return_halts_or_returns (tiny "a@@" 2 [0; 0; 0] [1] false) "@")
    as (_ & _ & Hpop & _).
  split; [apply Hhalt; reflexivity|].
  split; [exact (Hpop [] 1 eq_refl)|].
  apply (Honly "@"%char); reflexivity.
Defined.

(** ["+[]"] never ends by itself; with a cycle limit of 10, ten turns of
    the loop bring [run] back. *)
Lemma run_within_cycle_limit_witness :
  let i := mkInterpreter
             (mkMachine (list_ascii_of_string "+[]") [] Stack.init 0 0
                (replicate (Z.to_nat memory_size) 0) 0 false)
             (PyInt 10) PyNone PyNone PyNone in
  let r := run 10 (start i tt) in
  0 <= cycle_count (attrs (self r.2)) <= 10 /\ r.1 <> OutOfFuel.
Proof.
  intros i r.
  destruct (run_within_cycle_limit (list_ascii_of_string "+[]") 10
              PyNone PyNone PyNone i tt 10) as (Hcount & Hback & _);
    [lia|reflexivity|].
  split; [exact Hcount|]. apply Hback. vm_compute. lia.
Defined.

(** On a three-cell tape at cell 0 holding 255: ["<"] stays at 0 and ["+"]
    wraps to 0. *)
Lemma tape_invariant_preserved_witness :
  tape_invariant (execute_instruction "<" (tiny "<+" 0 [255; 0; 0] [] false)).2
  /\ memory_pointer
       (attrs (self (instr_dec_memory_pointer "<"
                       (tiny "<+" 0 [255; 0; 0] [] false)).2)) = 0
  /\ memory (attrs (self (instr_inc_memory "+"
                            (tiny "<+" 0 [255; 0; 0] [] false)).2))
     = [0; 0; 0].
Proof.
  assert (Hinv : tape_invariant (tiny "<+" 0 [255; 0; 0] [] false)).
  { split.
    - intros f Hf. discriminate Hf.
    - split; [unfold Py.len; simpl; lia|]. unfold max_memory_value. simpl.
      repeat constructor; lia. }
  destruct (tape_invariant_preserved (tiny "<+" 0 [255; 0; 0] [] false) "<"
              Hinv) as ((Hexec & _) & _ & _ & Hdec & _).
  destruct (tape_invariant_preserved (tiny "<+" 0 [255; 0; 0] [] false) "+"
              Hinv) as (_ & _ & _ & _ & v & Hv & Hinc & _).
  split; [exact Hexec|]. split; [exact Hdec|].
  injection Hv as <-. exact Hinc.
Defined.

(** ["?"] is not an instruction. *)
Lemma unknown_instruction_raises_witness :
  run 5 (tiny "+?" 1 [1; 0; 0] [] false)
    = (Raise (KeyError "?"), tiny "+?" 1 [1; 0; 0] [] false).
Proof.
  destruct (unknown_instruction_raises (tiny "+?" 1 [1; 0; 0] [] false) "?")
    as (_ & _ & Hrun).
  - intros H. vm_compute in H.
    repeat (destruct H as [H|H]; [discriminate H|]). exact H.
  - apply Hrun. apply tiny_about_to_execute; reflexivity.
Defined.

(** C8 as the specification has it fails.  ["?"] raises the same fault at
    offset 0 of ["?"] and at offset 1 of ["+?"], so the offset cannot be
    read off the fault. *)
Lemma unknown_instruction_fault_omits_offset :
  (run 1 (tiny "?" 0 [0; 0; 0] [] false)).1 = Raise (KeyError "?") /\
  (run 1 (tiny "+?" 1 [1; 0; 0] [] false)).1 = Raise (KeyError "?") /\
  instruction_pointer (attrs (self (tiny "?" 0 [0; 0; 0] [] false)))
  <> instruction_pointer (attrs (self (tiny "+?" 1 [1; 0; 0] [] false))) /\
  ~ fault_surfaces_character_and_offset (World:=unit).
Proof.
  split; [reflexivity|]. split; [reflexivity|]. split; [discriminate|].
  intros (character_of & offset_of & H).
  assert (Hc : ~ In "?"%char alphabet).
  { intros Hin. vm_compute in Hin.
    repeat (destruct Hin as [Hin|Hin]; [discriminate Hin|]). exact Hin. }
  destruct (H (tiny "?" 0 [0; 0; 0] [] false) "?"%char 0%nat Hc)
    as (e0 & st0 & Hrun0 & _ & Hoff0);
    [apply tiny_about_to_execute; reflexivity|].
  destruct (H (tiny "+?" 1 [1; 0; 0] [] false) "?"%char 0%nat Hc)
    as (e1 & st1 & Hrun1 & _ & Hoff1);
    [apply tiny_about_to_execute; reflexivity|].
  apply (f_equal fst) in Hrun0, Hrun1.
  change (Raise (A:=unit) (KeyError "?") = Raise e0) in Hrun0.
  change (Raise (A:=unit) (KeyError "?") = Raise e1) in Hrun1.
  assert (He : e0 = e1) by congruence.
  rewrite He, Hoff1 in Hoff0. discriminate Hoff0.
Qed.

(** Twenty-seven delimiters are one too many; [".@....@+.+@[+]."] declares
    three functions, at 2, 7 and 11. *)
Lemma construction_checks_function_count_witness :
  new_Interpreter (World:=unit) too_many_functions (PyInt 0) PyNone PyNone
    PyNone = Raise (NameError "functions") /\
  exists i : Interpreter unit,
    new_Interpreter (list_ascii_of_string ".@....@+.+@[+].") (PyInt 0) PyNone
      PyNone PyNone = Return i /\
    functions (attrs i) = [2; 7; 11].
Proof.
  split.
  - apply (construction_checks_function_count (World:=unit) too_many_functions
             (PyInt 0) PyNone PyNone PyNone).
    vm_compute. reflexivity.
  - destruct (construction_checks_function_count (World:=unit)
                (list_ascii_of_string ".@....@+.+@[+].")
                (PyInt 0) PyNone PyNone PyNone) as (_ & Hok).
    destruct Hok as (i & Hnew & _ & Hfs & _); [vm_compute; discriminate|].
    exists i. split; [exact Hnew|]. rewrite Hfs. reflexivity.
Defined.

(** ["[+"] on a zero cell: the scan leaves the instruction pointer at 2,
    the length of the source, and raises. *)
Lemma loop_start_unmatched_raises_witness :
  run 1 (tiny "[+" 0 [0; 0; 0] [] false)
    = (Raise IndexError, tiny "[+" 2 [0; 0; 0] [] false).
Proof.
  destruct (loop_start_unmatched_raises (tiny "[+" 0 [0; 0; 0] [] false) "[")
    as (_ & _ & _ & Hrun);
    [unfold Py.len; simpl; lia|reflexivity|reflexivity|].
  apply Hrun. apply tiny_about_to_execute; reflexivity.
Defined.

(** ** The methods outside the run loop *)

(** *** [split], [join] and slices *)

Lemma split_not_nil sep s : Str.split sep s <> [].
Proof.
  destruct s as [|c s]; simpl; [discriminate|].
  destruct (Ascii.eqb c sep); [discriminate|].
  destruct (Str.split sep s); discriminate.
Qed.

Lemma join_cons sep piece pieces :
  pieces <> [] ->
  Str.join sep (piece :: pieces) = piece ++ sep :: Str.join sep pieces.
Proof. destruct pieces; [congruence|reflexivity]. Qed.

Lemma join_split sep s : Str.join sep (Str.split sep s) = s.
Proof.
  induction s as [|c s IH]; simpl; [reflexivity|].
  destruct (Ascii.eqb_spec c sep) as [->|Hc].
  - rewrite join_cons by apply split_not_nil. simpl. f_equal. exact IH.
  - pose proof (split_not_nil sep s) as Hne.
    destruct (Str.split sep s) as [|piece pieces]; [congruence|].
    destruct pieces as [|piece' pieces].
    + simpl in *. f_equal. exact IH.
    + rewrite join_cons by discriminate. rewrite join_cons in IH by discriminate.
      simpl. f_equal. exact IH.
Qed.

Lemma split_length s :
  Py.len (Str.split "@" s) = delimiter_count s + 1.
Proof.
  unfold Py.len, delimiter_count.
  induction s as [|c s IH]; simpl; [reflexivity|].
  destruct (Ascii.eqb_spec c "@") as [->|Hc].
  - destruct (ascii_dec "@" "@"); [|congruence]. simpl length. lia.
  - destruct (ascii_dec c "@"); [congruence|].
    pose proof (split_not_nil "@" s) as Hne.
    destruct (Str.split "@" s) as [|piece pieces]; [congruence|].
    simpl in *. lia.
Qed.

Lemma split_delimiter_free s : Forall delimiter_free (Str.split "@" s).
Proof.
  induction s as [|c s IH]; simpl.
  - constructor; [|constructor]. intros [].
  - destruct (Ascii.eqb_spec c "@") as [->|Hc].
    + constructor; [intros []|exact IH].
    + pose proof (split_not_nil "@" s) as Hne.
      destruct (Str.split "@" s) as [|piece pieces]; [congruence|].
      inversion IH as [|? ? Hp Hps]; subst. constructor; [|exact Hps].
      intros [Heq|Hin]; [congruence|]. exact (Hp Hin).
Qed.

Lemma split_delimiter_free_piece piece :
  delimiter_free piece -> Str.split "@" piece = [piece].
Proof.
  induction piece as [|c piece IH]; intros Hfree; simpl; [reflexivity|].
  destruct (Ascii.eqb_spec c "@") as [->|Hc].
  - exfalso. apply Hfree. left. reflexivity.
  - rewrite IH; [reflexivity|]. intros Hin. apply Hfree. right. exact Hin.
Qed.

Lemma split_app piece s :
  delimiter_free piece ->
  Str.split "@" (piece ++ "@"%char :: s) = piece :: Str.split "@" s.
Proof.
  induction piece as [|c piece IH]; intros Hfree; simpl; [reflexivity|].
  destruct (Ascii.eqb_spec c "@") as [->|Hc].
  - exfalso. apply Hfree. left. reflexivity.
  - rewrite IH; [reflexivity|]. intros Hin. apply Hfree. right. exact Hin.
Qed.

Lemma split_join pieces :
  pieces <> [] -> Forall delimiter_free pieces ->
  Str.split "@" (Str.join "@" pieces) = pieces.
Proof.
  induction pieces as [|piece pieces IH]; intros Hne Hfree; [congruence|].
  inversion Hfree as [|? ? Hp Hps]; subst.
  destruct pieces as [|piece' pieces].
  - simpl. apply split_delimiter_free_piece, Hp.
  - rewrite join_cons by discriminate. rewrite split_app by exact Hp.
    f_equal. apply IH; [discriminate|exact Hps].
Qed.

Lemma slice_take_drop {A} (s : list A) (start stop : Z) :
  0 <= start -> 0 <= stop ->
  Str.slice s start stop
  = take (Z.to_nat (stop - start)) (drop (Z.to_nat start) s).
Proof.
  intros Hstart Hstop. unfold Str.slice, Str.bound.
  replace (start <? 0) with false by (symmetry; lia).
  replace (stop <? 0) with false by (symmetry; lia).
  unfold Py.len.
  destruct (Z.le_gt_cases start (Z.of_nat (length s))) as [Hs|Hs].
  - rewrite (Z.min_l start) by lia.
    destruct (Z.le_gt_cases stop (Z.of_nat (length s))) as [Ht|Ht].
    + rewrite (Z.min_l stop) by lia. reflexivity.
    + rewrite (Z.min_r stop) by lia.
      rewrite !take_ge; [reflexivity| |]; rewrite length_drop; lia.
  - rewrite (Z.min_r start) by lia.
    rewrite !drop_ge by lia. rewrite !take_nil. reflexivity.
Qed.

(** *** The function table and the pieces of the source *)

Lemma piece_starts_cons p q pieces i :
  piece_starts (p :: q :: pieces) i
  = (i + Py.len p + 1) :: piece_starts (q :: pieces) (i + Py.len p + 1).
Proof. reflexivity. Qed.

Lemma len_cons {A} (x : A) (l : list A) : Py.len (x :: l) = Py.len l + 1.
Proof. unfold Py.len. simpl length. lia. Qed.

Lemma offsets_piece_starts s i :
  offsets_after_delimiters s i = piece_starts (Str.split "@" s) i.
Proof.
  revert i. induction s as [|c s IH]; intros i; simpl; [reflexivity|].
  pose proof (split_not_nil "@" s) as Hne.
  destruct (Ascii.eqb c "@").
  - destruct (Str.split "@" s) as [|piece pieces] eqn:E; [congruence|].
    rewrite IH, piece_starts_cons.
    change (Py.len (@nil ascii)) with 0. rewrite Z.add_0_r. reflexivity.
  - rewrite IH.
    destruct (Str.split "@" s) as [|piece pieces]; [congruence|].
    destruct pieces as [|piece' pieces]; [reflexivity|].
    rewrite !piece_starts_cons, len_cons.
    replace (i + (Py.len piece + 1) + 1) with (i + 1 + Py.len piece + 1)
      by lia.
    reflexivity.
Qed.

Lemma join_length_cons piece piece' pieces :
  Py.len (Str.join "@" (piece :: piece' :: pieces))
  = Py.len piece + 1 + Py.len (Str.join "@" (piece' :: pieces)).
Proof.
  rewrite join_cons by discriminate. unfold Py.len.
  rewrite length_app. simpl length. lia.
Qed.

(** Piece [k + 1] lies in the joined text between the start recorded for
    it and one before the next start, or the end of the text. *)
Lemma piece_located pieces :
  forall i (k : nat) piece,
    pieces !! S k = Some piece ->
    exists a,
      piece_starts pieces i !! k = Some a /\
      i < a /\
      take (length piece) (drop (Z.to_nat (a - i)) (Str.join "@" pieces))
        = piece /\
      default (i + Py.len (Str.join "@" pieces) + 1)
        (piece_starts pieces i !! S k)
        = a + Py.len piece + 1.
Proof.
  induction pieces as [|p0 pieces IH]; intros i k piece Hk; [discriminate|].
  destruct pieces as [|p1 pieces]; [discriminate|].
  set (j := i + Py.len p0 + 1).
  assert (Hdrop : forall n : Z,
            0 <= n ->
            drop (Z.to_nat (j + n - i)) (Str.join "@" (p0 :: p1 :: pieces))
            = drop (Z.to_nat n) (Str.join "@" (p1 :: pieces))).
  { intros n Hn. rewrite join_cons by discriminate.
    replace (Z.to_nat (j + n - i)) with (length p0 + S (Z.to_nat n))%nat
      by (unfold j, Py.len; lia).
    rewrite drop_app_add. reflexivity. }
  change (piece_starts (p0 :: p1 :: pieces) i)
    with (j :: piece_starts (p1 :: pieces) j).
  destruct k as [|k].
  - assert (piece = p1) as -> by (simpl in Hk; congruence).
    exists j. split; [exact eq_refl|].
    split; [unfold j, Py.len; lia|]. split.
    + replace (j - i) with (j + 0 - i) by lia. rewrite Hdrop by lia.
      change (Z.to_nat 0) with 0%nat. rewrite drop_0.
      destruct pieces as [|p2 pieces].
      * simpl. apply take_ge. lia.
      * rewrite join_cons by discriminate. apply take_app_length.
    + destruct pieces as [|p2 pieces].
      * rewrite join_length_cons. change (Str.join "@" [p1]) with p1.
        change ((j :: piece_starts [p1] j) !! 1%nat) with (@None Z).
        unfold default, j. lia.
      * reflexivity.
  - simpl in Hk. destruct (IH j k piece Hk) as (a & Ha & Hlt & Htake & Hnext).
    exists a. split; [exact Ha|]. split; [unfold j, Py.len in *; lia|]. split.
    + replace (a - i) with (j + (a - j) - i) by lia. rewrite Hdrop by lia.
      exact Htake.
    + change ((j :: piece_starts (p1 :: pieces) j) !! S (S k))
        with (piece_starts (p1 :: pieces) j !! S k).
      rewrite <- Hnext. rewrite join_length_cons. unfold j.
      replace (i + (Py.len p0 + 1 + Py.len (Str.join "@" (p1 :: pieces))) + 1)
        with (i + Py.len p0 + 1 + Py.len (Str.join "@" (p1 :: pieces)) + 1)
        by lia.
      reflexivity.
Qed.

Lemma piece_starts_length pieces i :
  length (piece_starts pieces i) = pred (length pieces).
Proof.
  revert i. induction pieces as [|p pieces IH]; intros i; [reflexivity|].
  destruct pieces as [|q pieces]; [reflexivity|].
  rewrite piece_starts_cons. cbn [length]. rewrite IH. reflexivity.
Qed.

Lemma piece_starts_above pieces i x :
  In x (piece_starts pieces i) -> i < x.
Proof.
  revert i. induction pieces as [|p pieces IH]; intros i; [intros []|].
  destruct pieces as [|q pieces]; [intros []|].
  rewrite piece_starts_cons. intros [<-|Hin].
  - unfold Py.len. lia.
  - specialize (IH _ Hin). unfold Py.len in *. lia.
Qed.

Lemma piece_starts_first pieces i f0 fs :
  piece_starts pieces i = f0 :: fs ->
  Forall (fun x => i < f0 <= x) (f0 :: fs).
Proof.
  destruct pieces as [|p [|q pieces]]; try discriminate.
  rewrite piece_starts_cons. intros H.
  assert (Hf0 : f0 = i + Py.len p + 1) by congruence.
  assert (Hfs : fs = piece_starts (q :: pieces) f0) by congruence.
  assert (Hi : i < f0) by (rewrite Hf0; unfold Py.len; lia).
  constructor; [lia|]. apply Forall_forall. intros x Hx.
  apply list_elem_of_In in Hx. rewrite Hfs in Hx.
  apply piece_starts_above in Hx. lia.
Qed.

(** *** [get_function] and [source_no_functions] *)

Section EditingProperties.

Context {World : Type}.
Implicit Types (this : Interpreter World).

Lemma constructed_functions this :
  constructed this ->
  functions (attrs this)
  = piece_starts (Str.split "@" (source (attrs this))) 0.
Proof. intros H. rewrite H. apply offsets_piece_starts. Qed.

Lemma constructed_functions_length this :
  constructed this ->
  S (length (functions (attrs this)))
  = length (Str.split "@" (source (attrs this))).
Proof.
  intros H. rewrite (constructed_functions this H), piece_starts_length.
  pose proof (split_not_nil "@" (source (attrs this))).
  destruct (Str.split "@" (source (attrs this))); [congruence|reflexivity].
Qed.

(** [get_function] at a non-negative index returns the piece of the
    source after that many delimiters and one more, if there is one. *)
Lemma get_function_split this index :
  constructed this -> 0 <= index ->
  get_function this index =
    match Str.split "@" (source (attrs this)) !! S (Z.to_nat index) with
    | Some piece => Return piece
    | None => Raise IndexError
    end.
Proof.
  intros Hc Hindex. unfold get_function.
  pose proof (constructed_functions_length this Hc) as Hlen.
  rewrite (constructed_functions this Hc) in *.
  set (pieces := Str.split "@" (source (attrs this))) in *.
  set (fs := piece_starts pieces 0) in *.
  destruct (pieces !! S (Z.to_nat index)) as [piece|] eqn:E.
  - destruct (piece_located pieces 0 (Z.to_nat index) piece E)
      as (a & Ha & Hpos & Htake & Hnext).
    fold fs in Ha, Hnext.
    pose proof (lookup_lt_Some _ _ _ Ha) as Hk.
    rewrite getitem_in_range by (unfold Py.len; lia). rewrite Ha.
    assert (Hjoin : Str.join "@" pieces = source (attrs this))
      by apply join_split.
    rewrite Hjoin in Htake, Hnext.
    replace (Z.to_nat (a - 0)) with (Z.to_nat a) in Htake by lia.
    destruct (Z.ltb_spec (index + 1) (Py.len fs)) as [Hlt|Hge].
    + rewrite getitem_in_range by lia.
      replace (Z.to_nat (index + 1)) with (S (Z.to_nat index)) by lia.
      destruct (fs !! S (Z.to_nat index)) as [e|] eqn:He.
      2:{ apply lookup_ge_None in He. unfold Py.len in Hlt. lia. }
      simpl in Hnext. subst e.
      rewrite slice_take_drop by (unfold Py.len; lia).
      replace (Z.to_nat (a + Py.len piece + 1 - 1 - a)) with (length piece)
        by (unfold Py.len; lia).
      rewrite Htake. reflexivity.
    + assert (He : fs !! S (Z.to_nat index) = None)
        by (apply lookup_ge_None; unfold Py.len in Hge; lia).
      rewrite He in Hnext. simpl in Hnext.
      rewrite slice_take_drop by (unfold Py.len; lia).
      replace (Z.to_nat (Py.len (source (attrs this)) + 1 - 1 - a))
        with (length piece) by (unfold Py.len in *; lia).
      rewrite Htake. reflexivity.
  - apply lookup_ge_None in E.
    rewrite getitem_past_end by (unfold Py.len; lia). reflexivity.
Qed.

(** [source_no_functions] returns the first piece of the source. *)
Lemma source_no_functions_split this :
  constructed this ->
  exists main bodies,
    Str.split "@" (source (attrs this)) = main :: bodies /\
    source_no_functions this = Return main.
Proof.
  intros Hc. unfold source_no_functions.
  pose proof (constructed_functions_length this Hc) as Hlen.
  pose proof (join_split "@" (source (attrs this))) as Hjoin.
  rewrite (constructed_functions this Hc) in *.
  destruct (Str.split "@" (source (attrs this))) as [|main bodies] eqn:E;
    [discriminate|].
  exists main, bodies. split; [reflexivity|].
  destruct bodies as [|body bodies].
  - simpl. simpl in Hjoin. rewrite Hjoin. reflexivity.
  - rewrite piece_starts_cons.
    replace (Py.len (_ :: _) >? 0) with true
      by (symmetry; rewrite Z.gtb_ltb; apply Z.ltb_lt; rewrite len_cons;
          unfold Py.len; lia).
    rewrite getitem_in_range by (rewrite len_cons; unfold Py.len; lia).
    change (Z.to_nat 0) with 0%nat. simpl lookup. cbv beta iota.
    rewrite slice_take_drop by (unfold Py.len; lia).
    rewrite <- Hjoin, join_cons by discriminate.
    change (Z.to_nat 0) with 0%nat. rewrite drop_0.
    replace (Z.to_nat (0 + Py.len main + 1 - 1 - 0)) with (length main)
      by (unfold Py.len; lia).
    rewrite take_app_length. reflexivity.
Qed.

(** X1. The source of a constructed engine is its main program and its
    function bodies joined by the delimiter: [source_no_functions] returns
    the main program, [get_function] returns body [k] for every declared
    [k] and raises [IndexError] beyond, and none of these texts contains a
    delimiter. *)
Theorem source_is_join_of_functions this :
  constructed this ->
  exists main bodies,
    source_no_functions this = Return main /\
    Py.len bodies = Py.len (functions (attrs this)) /\
    (forall k : nat,
       get_function this (Z.of_nat k) =
         match bodies !! k with
         | Some body => Return body
         | None => Raise IndexError
         end) /\
    Str.join "@" (main :: bodies) = source (attrs this) /\
    Forall delimiter_free (main :: bodies).
Proof.
  intros Hc.
  destruct (source_no_functions_split this Hc) as (main & bodies & E & Hmain).
  exists main, bodies. split; [exact Hmain|].
  pose proof (constructed_functions_length this Hc) as Hlen.
  rewrite E in Hlen. split; [unfold Py.len; simpl in Hlen; lia|]. split.
  - intros k. rewrite get_function_split by (assumption || lia).
    rewrite E, Nat2Z.id. reflexivity.
  - rewrite <- E. split; [apply join_split|apply split_delimiter_free].
Qed.

(** X2. With at least one function declared, [get_function(-1)] is the
    empty text, whatever the last function contains: the start is taken
    from the last entry of the table and the end from the first. *)
Theorem get_function_minus_one_is_empty this :
  constructed this ->
  functions (attrs this) <> [] ->
  get_function this (-1) = Return [].
Proof.
  intros Hc Hne. unfold get_function.
  pose proof (constructed_functions this Hc) as Hfs.
  destruct (functions (attrs this)) as [|f0 fs] eqn:E; [congruence|].
  assert (Hfirst : Forall (fun x => 0 < f0 <= x) (f0 :: fs))
    by (apply (piece_starts_first
                 (Str.split "@" (source (attrs this))) 0);
        symmetry; exact Hfs).
  destruct (exists_last (l:=f0 :: fs)) as (front & a & Hlast);
    [discriminate|].
  rewrite Hlast at 1. rewrite getitem_last.
  assert (Ha : 0 < f0 <= a).
  { apply (proj1 (Forall_forall _ _) Hfirst). rewrite Hlast.
    apply list_elem_of_In, in_or_app. right. left. reflexivity. }
  replace (-1 + 1 <? Py.len (f0 :: fs)) with true
    by (symmetry; apply Z.ltb_lt; rewrite len_cons; unfold Py.len; lia).
  rewrite getitem_in_range by (rewrite len_cons; unfold Py.len; lia).
  change (Z.to_nat (-1 + 1)) with 0%nat. simpl lookup. cbv beta iota.
  f_equal. unfold Str.slice, Str.bound.
  replace (a <? 0) with false by (symmetry; lia).
  replace (f0 - 1 <? 0) with false by (symmetry; lia).
  match goal with
  | |- take ?n _ = _ => replace n with 0%nat by (unfold Py.len; lia)
  end.
  reflexivity.
Qed.

(** *** [set_function] *)

Lemma set_function_while_eq fuel :
  forall index split_source function_ctr,
    (Z.to_nat (index + 1 - function_ctr) <= fuel)%nat ->
    set_function_while fuel index split_source function_ctr
    = Some (split_source
              ++ replicate (Z.to_nat (index + 1 - function_ctr)) []).
Proof.
  induction fuel as [|fuel IH]; intros index pieces ctr Hfuel; simpl;
    destruct (Z.ltb_spec ctr (index + 1)) as [Hlt|Hge];
    try lia;
    try (replace (Z.to_nat (index + 1 - ctr)) with 0%nat by lia;
         simpl; rewrite app_nil_r; reflexivity).
  rewrite IH by lia.
  replace (Z.to_nat (index + 1 - ctr))
    with (S (Z.to_nat (index + 1 - (ctr + 1)))) by lia.
  simpl replicate. rewrite <- app_assoc. reflexivity.
Qed.

(** The pieces [set_function] joins: the pieces of the source, padded with
    empty functions up to [index], with [function_source] at [index + 1]. *)
Lemma set_function_eq this index function_source :
  constructed this -> -1 <= index ->
  set_function this index function_source =
    new_Interpreter
      (Str.join "@"
         (<[Z.to_nat (index + 1) := function_source]>
            (Str.split "@" (source (attrs this))
               ++ replicate
                    (Z.to_nat (index + 1 - Py.len (functions (attrs this))))
                    [])))
      (PyInt 0) PyNone PyNone PyNone.
Proof.
  intros Hc Hindex. unfold set_function.
  rewrite set_function_while_eq by lia.
  pose proof (constructed_functions_length this Hc) as Hlen.
  rewrite setitem_in_range.
  - reflexivity.
  - unfold Py.len in *. rewrite length_app, length_replicate. lia.
Qed.

Lemma delimiter_count_app s t :
  delimiter_count (s ++ t) = delimiter_count s + delimiter_count t.
Proof. unfold delimiter_count. rewrite count_occ_app. lia. Qed.

Lemma delimiter_count_join pieces :
  pieces <> [] ->
  Py.len pieces - 1 <= delimiter_count (Str.join "@" pieces).
Proof.
  induction pieces as [|p pieces IH]; intros Hne; [congruence|].
  destruct pieces as [|q pieces].
  - unfold Py.len, delimiter_count. simpl length. lia.
  - rewrite join_cons by discriminate. rewrite delimiter_count_app.
    specialize (IH ltac:(discriminate)).
    rewrite !len_cons in *.
    assert (delimiter_count ("@"%char :: Str.join "@" (q :: pieces))
            = delimiter_count (Str.join "@" (q :: pieces)) + 1).
    { unfold delimiter_count. simpl count_occ.
      destruct (ascii_dec "@" "@"); [lia|congruence]. }
    assert (0 <= delimiter_count p) by (unfold delimiter_count; lia).
    lia.
Qed.

Lemma delimiter_free_nil : delimiter_free [].
Proof. intros []. Qed.

(** X3. On a constructed engine, [set_function(index, body)] with a
    non-negative index and a body without delimiter, within the limit of 26
    functions, returns an engine in which function [index] is [body]: the
    main program and the other declared functions are as before, the
    functions added to reach [index] are empty, and the function count is
    the larger of the old count and [index + 1]. *)
Theorem set_function_replaces_one_function this index body :
  constructed this ->
  0 <= index ->
  delimiter_free body ->
  let n := Py.len (functions (attrs this)) in
  Z.max n (index + 1) <= max_functions ->
  exists that,
    set_function this index body = Return that /\
    constructed that /\
    Py.len (functions (attrs that)) = Z.max n (index + 1) /\
    get_function that index = Return body /\
    (forall k, 0 <= k < n -> k <> index ->
               get_function that k = get_function this k) /\
    (forall k, n <= k < index -> get_function that k = Return []) /\
    source_no_functions that = source_no_functions this.
Proof.
  intros Hc Hindex Hbody n Hmax.
  assert (Hn : 0 <= n) by (unfold n, Py.len; lia).
  rewrite set_function_eq by (assumption || lia).
  pose proof (constructed_functions_length this Hc) as Hlen.
  fold n.
  set (pieces := Str.split "@" (source (attrs this))) in *.
  set (padded := pieces ++ replicate (Z.to_nat (index + 1 - n)) []).
  set (pieces' := <[Z.to_nat (index + 1) := body]> padded).
  assert (Hpadded : Z.of_nat (length padded) = Z.max n (index + 1) + 1).
  { unfold padded, n, Py.len in *. rewrite length_app, length_replicate. lia. }
  assert (Hlen' : Z.of_nat (length pieces') = Z.max n (index + 1) + 1).
  { unfold pieces'. rewrite length_insert. exact Hpadded. }
  assert (Hfree : Forall delimiter_free pieces').
  { apply Forall_insert; [|exact Hbody]. apply Forall_app. split.
    - apply split_delimiter_free.
    - apply Forall_replicate, delimiter_free_nil. }
  assert (Hne : pieces' <> []) by (intros E; rewrite E in Hlen'; simpl in *; lia).
  assert (Hsplit : Str.split "@" (Str.join "@" pieces') = pieces')
    by (apply split_join; assumption).
  assert (Hcount : delimiter_count (Str.join "@" pieces') = Z.max n (index + 1)).
  { pose proof (split_length (Str.join "@" pieces')) as H.
    rewrite Hsplit in H. unfold Py.len in H. lia. }
  rewrite new_Interpreter_eq.
  replace (delimiter_count (Str.join "@" pieces') >? max_functions) with false
    by (symmetry; rewrite Z.gtb_ltb; apply Z.ltb_ge; lia).
  eexists. split; [reflexivity|].
  match goal with
  | |- constructed ?t /\ _ => set (that := t)
  end.
  assert (Hthat : constructed that) by reflexivity.
  assert (Hsrc : Str.split "@" (source (attrs that)) = pieces') by exact Hsplit.
  split; [exact Hthat|]. split.
  { change (functions (attrs that))
      with (offsets_after_delimiters (Str.join "@" pieces') 0).
    rewrite offsets_length. exact Hcount. }
  split.
  { rewrite get_function_split by assumption. rewrite Hsrc.
    unfold pieces'.
    replace (Z.to_nat (index + 1)) with (S (Z.to_nat index)) by lia.
    rewrite list_lookup_insert_eq by lia. reflexivity. }
  split.
  { intros k Hk Hneq. rewrite !get_function_split by (assumption || lia).
    rewrite Hsrc. fold pieces. unfold pieces'.
    rewrite list_lookup_insert_ne by lia.
    unfold padded. rewrite lookup_app_l; [reflexivity|].
    unfold n, Py.len in *. lia. }
  split.
  { intros k Hk. rewrite get_function_split by (assumption || lia).
    rewrite Hsrc. unfold pieces'.
    rewrite list_lookup_insert_ne by lia.
    unfold padded. rewrite lookup_app_r by (unfold n, Py.len in *; lia).
    rewrite lookup_replicate_2; [reflexivity|].
    unfold n, Py.len in *. lia. }
  destruct (source_no_functions_split this Hc) as (main & bodies & E & ->).
  destruct (source_no_functions_split that Hthat) as (main' & bodies' & E' & ->).
  f_equal. rewrite Hsrc in E'. fold pieces in E.
  assert (H0 : pieces' !! 0%nat = pieces !! 0%nat).
  { unfold pieces'. rewrite list_lookup_insert_ne by lia.
    unfold padded. apply lookup_app_l. rewrite E. simpl. lia. }
  rewrite E, E' in H0. simpl in H0. congruence.
Qed.

(** X4. Whatever [set_function] returns is a fresh engine on the edited
    source: the cycle limit and the callbacks of the original are not
    carried over, and the tape, both pointers, the cycle count and the
    control stack start over. *)
Theorem set_function_returns_a_fresh_engine this index body that :
  set_function this index body = Return that ->
  cycle_limit that = PyInt 0 /\
  input_function that = PyNone /\
  output_function that = PyNone /\
  on_execute that = PyNone /\
  memory (attrs that) = replicate (Z.to_nat memory_size) 0 /\
  memory_pointer (attrs that) = 0 /\
  instruction_pointer (attrs that) = 0 /\
  cycle_count (attrs that) = 0 /\
  stack (attrs that) = [] /\
  need_to_exit (attrs that) = false /\
  constructed that.
Proof.
  unfold set_function.
  destruct (set_function_while _ _ _ _) as [pieces|]; [|discriminate].
  destruct (Py.setitem _ _ _) as [pieces'|]; [|discriminate].
  change (clone this (Some (Str.join "@" pieces')) PyNone PyNone PyNone PyNone)
    with (new_Interpreter (World:=World) (Str.join "@" pieces') (PyInt 0)
            PyNone PyNone PyNone).
  rewrite new_Interpreter_eq. destruct (_ >? _); [discriminate|].
  intros H.
  apply (f_equal (fun o => match o with Return x => x | _ => that end)) in H.
  cbv beta iota in H. rewrite <- H. repeat split.
Qed.

(** X5. Writing a function back where it was read leaves the source as it
    is: [set_function(index, get_function(index))] is the constructor on
    the same source. *)
Theorem set_function_get_function this index body :
  constructed this ->
  0 <= index ->
  get_function this index = Return body ->
  set_function this index body =
    new_Interpreter (source (attrs this)) (PyInt 0) PyNone PyNone PyNone.
Proof.
  intros Hc Hindex Hget.
  rewrite get_function_split in Hget by assumption.
  destruct (Str.split "@" (source (attrs this)) !! S (Z.to_nat index))
    as [piece|] eqn:E; [|discriminate].
  injection Hget as ->.
  pose proof (lookup_lt_Some _ _ _ E) as Hlt.
  pose proof (constructed_functions_length this Hc) as Hlen.
  rewrite set_function_eq by (assumption || lia).
  replace (Z.to_nat (index + 1 - Py.len (functions (attrs this)))) with 0%nat
    by (unfold Py.len; lia).
  simpl replicate. rewrite app_nil_r.
  replace (Z.to_nat (index + 1)) with (S (Z.to_nat index)) by lia.
  rewrite list_insert_id by exact E.
  rewrite join_split. reflexivity.
Qed.

(** X6. [set_function] at an index of 26 or more raises, whatever the
    engine and the body: the edited source has more than 26 delimiters and
    the constructor refuses it. *)
Theorem set_function_beyond_limit_raises this index body :
  constructed this ->
  max_functions <= index ->
  set_function this index body = Raise (NameError "functions").
Proof.
  intros Hc Hindex. unfold max_functions in Hindex.
  rewrite set_function_eq by (assumption || lia).
  pose proof (constructed_functions_length this Hc) as Hlen.
  rewrite new_Interpreter_eq.
  match goal with
  | |- context [Str.join "@" ?l] => set (pieces' := l)
  end.
  assert (Hlen' : index + 2 <= Py.len pieces').
  { unfold pieces', Py.len in *.
    rewrite length_insert, length_app, length_replicate. lia. }
  assert (Hne : pieces' <> [])
    by (intros E; rewrite E in Hlen'; unfold Py.len in Hlen'; simpl in *; lia).
  pose proof (delimiter_count_join pieces' Hne) as Hcount.
  replace (delimiter_count (Str.join "@" pieces') >? max_functions) with true
    by (symmetry; rewrite Z.gtb_ltb; apply Z.ltb_lt; unfold max_functions; lia).
  reflexivity.
Qed.

(** X7. [set_function(-1, body)] does not touch the functions: it puts
    [body] in the place of the main program. *)
Theorem set_function_minus_one_replaces_main this body :
  constructed this ->
  exists main bodies,
    Str.split "@" (source (attrs this)) = main :: bodies /\
    set_function this (-1) body =
      new_Interpreter (Str.join "@" (body :: bodies)) (PyInt 0) PyNone PyNone
        PyNone.
Proof.
  intros Hc.
  destruct (source_no_functions_split this Hc) as (main & bodies & E & _).
  exists main, bodies. split; [exact E|].
  rewrite set_function_eq by (assumption || lia).
  replace (Z.to_nat (-1 + 1 - Py.len (functions (attrs this)))) with 0%nat
    by (unfold Py.len; lia).
  simpl replicate. rewrite app_nil_r, E. reflexivity.
Qed.

End EditingProperties.

(** *** [run], seen from outside *)

Section RunProperties.

Context {World : Type}.
Implicit Types (st : State World) (c instruction : ascii).

(** One turn of the loop of [run], all cases. *)
Lemma run_cases fuel st :
  run fuel st =
    let m := attrs (self st) in
    if (instruction_pointer m <? Py.len (source m)) && negb (need_to_exit m)
    then
      match cycle_limit (self st) with
      | PyInt limit =>
          if negb (limit =? 0) && (cycle_count m >=? limit) then
            print "Ending early due to cycle limit" st
          else
            match fuel with
            | O => (OutOfFuel, st)
            | S fuel' =>
                match Py.getitem (source m) (instruction_pointer m) with
                | None => (Raise IndexError, st)
                | Some instruction =>
                    (execute_instruction instruction;;
                     count ← attr cycle_count;
                     assign (set_cycle_count (count + 1));;
                     run fuel') st
                end
            end
      | _ => (Raise TypeError, st)
      end
    else (Return tt, st).
Proof.
  cbv zeta.
  destruct fuel; simpl run;
    unfold mbind, M_bind, attr, config, cycle_limit_reached, mret, M_ret,
      or_raise, raise, out_of_fuel;
    cbv beta;
    (destruct (_ && _); [|reflexivity]);
    cbv beta iota;
    (destruct (cycle_limit (self st)); try reflexivity);
    (destruct (_ && _); [reflexivity|]);
    try reflexivity.
  destruct (Py.getitem _ _); reflexivity.
Qed.

#[local] Instance same_program_frame : Frame (World:=World) same_program.
Proof.
  split; unfold same_program; try (intros; repeat split; reflexivity).
  intros st1 st2 st3 (? & ? & ? & ? & ? & ?) (? & ? & ? & ? & ? & ?).
  repeat split; congruence.
Qed.

Lemma execute_instruction_same_program c :
  keeps (World:=World) same_program (execute_instruction c).
Proof.
  assert (Hf : forall (f : Machine -> Machine),
             (forall m, source (f m) = source m) ->
             (forall m, functions (f m) = functions m) ->
             forall st : State World, same_program st (with_attrs f st)).
  { intros f H1 H2 st. repeat split; simpl; auto. }
  apply keeps_execute_instruction; [exact _|]. intros h.
  apply keeps_dispatch; try exact _.
  - apply keeps_instr_input; [exact _|intros; apply Hf; reflexivity].
  - apply keeps_instr_inc_memory_pointer;
      [exact _|intros; apply Hf; reflexivity].
  - apply keeps_instr_dec_memory_pointer;
      [exact _|intros; apply Hf; reflexivity].
  - apply keeps_instr_inc_memory; [exact _|intros; apply Hf; reflexivity].
  - apply keeps_instr_dec_memory; [exact _|intros; apply Hf; reflexivity].
  - intros _. apply keeps_instr_return; [exact _|].
    intros; apply Hf; reflexivity.
Qed.

(** X8. [run] never edits the program it runs or the configuration it was
    given: whenever and however it stops, the source, the function table,
    the cycle limit and the three callbacks are the ones it started with;
    in particular a constructed engine stays constructed. *)
Theorem run_keeps_the_program fuel st :
  same_program st (run fuel st).2 /\
  (constructed (self st) -> constructed (self (run fuel st).2)).
Proof.
  assert (H : same_program st (run fuel st).2).
  { apply (keeps_run same_program execute_instruction_same_program).
    intros v st'. repeat split; reflexivity. }
  split; [exact H|].
  destruct H as (Hsrc & Hfs & _). unfold constructed.
  rewrite Hsrc, Hfs. auto.
Qed.

(** What [run] leaves behind when it returns. *)
Lemma run_Return_stopped fuel :
  forall st st', run fuel st = (Return tt, st') -> stopped st'.
Proof.
  induction fuel as [|fuel IH]; intros st st'; rewrite run_cases; cbv zeta;
    (destruct ((instruction_pointer (attrs (self st))
                <? Py.len (source (attrs (self st))))
               && negb (need_to_exit (attrs (self st)))) eqn:Hloop;
     [|intros [= <-]; apply andb_false_iff in Hloop as [Hip|Hexit];
       [left; unfold exhausted; lia
       |right; left; unfold halted;
        destruct (need_to_exit (attrs (self st)));
        [reflexivity|discriminate]]]);
    (destruct (cycle_limit (self st)) as [|limit| | | |] eqn:Hlimit;
     try discriminate);
    (destruct (negb (limit =? 0) && (cycle_count (attrs (self st)) >=? limit))
       eqn:Hreached;
     [intros [= <-]; right; right; exists limit;
      apply andb_prop in Hreached as [Hnz Hge];
      apply negb_true_iff, Z.eqb_neq in Hnz; rewrite Z.geb_leb in Hge;
      apply Z.leb_le in Hge; simpl; auto|]);
    [discriminate|].
  destruct (Py.getitem _ _) as [i|]; [|discriminate].
  unfold mbind at 1. unfold M_bind at 1.
  destruct (execute_instruction i st) as [[[]|e|] st1]; try discriminate.
  apply IH.
Qed.

(** X9. Once [run] has returned, running again executes nothing: it
    returns again, with the engine and the host exactly as the first run
    left them. *)
Theorem run_again_does_nothing fuel fuel' st st' :
  run fuel st = (Return tt, st') ->
  (run fuel' st').1 = Return tt /\
  self (run fuel' st').2 = self st' /\
  host (run fuel' st').2 = host st'.
Proof.
  intros H. apply run_Return_stopped in H.
  destruct (((instruction_pointer (attrs (self st'))
              <? Py.len (source (attrs (self st'))))
             && negb (need_to_exit (attrs (self st')))) ) eqn:Hloop.
  - destruct H as [H|[H|(limit & Hlimit & Hnz & Hge)]].
    + unfold exhausted in H. apply andb_prop in Hloop as [Hip _]. lia.
    + unfold halted in H. rewrite H in Hloop.
      rewrite andb_false_r in Hloop. discriminate.
    + rewrite (run_limited fuel' st' limit Hloop Hlimit Hnz Hge).
      repeat split.
  - rewrite (run_stops fuel' st' Hloop). repeat split.
Qed.

(** X10. The cycle count never goes down during [run], whatever the
    configuration and however [run] ends, and it goes up by at most one per
    turn of the loop. *)
Theorem run_cycle_count_monotone fuel :
  forall st,
    cycle_count (attrs (self st)) <= cycle_count (attrs (self (run fuel st).2))
    <= cycle_count (attrs (self st)) + Z.of_nat fuel.
Proof.
  induction fuel as [|fuel IH]; intros st;
    remember (run _ st) as r eqn:E; rewrite run_cases in E; cbv zeta in E;
    (destruct ((instruction_pointer (attrs (self st))
                <? Py.len (source (attrs (self st))))
               && negb (need_to_exit (attrs (self st))));
     [|subst r; simpl; lia]);
    (destruct (cycle_limit (self st)) as [|limit| | | |];
     try (subst r; simpl; lia));
    (destruct (negb (limit =? 0) && (cycle_count (attrs (self st)) >=? limit));
     [subst r; simpl; lia|]);
    [subst r; simpl; lia|].
  destruct (Py.getitem (source (attrs (self st)))
              (instruction_pointer (attrs (self st)))) as [i|];
    [|subst r; simpl; lia].
  pose proof (execute_instruction_same_cycle i st) as (Hc & _).
  unfold mbind at 1 in E. unfold M_bind at 1 in E.
  destruct (execute_instruction i st) as [[[]|e|] st1]; simpl in Hc;
    try (subst r; simpl; lia).
  set (st2 := with_attrs
                (set_cycle_count (cycle_count (attrs (self st1)) + 1)) st1).
  change (r = run fuel st2) in E. subst r.
  specialize (IH st2).
  change (cycle_count (attrs (self st2)))
    with (cycle_count (attrs (self st1)) + 1) in IH.
  lia.
Qed.

(** The trace hook, when it cannot raise, changes the host only. *)
Lemma quiet_hook_returns st c :
  quiet_hook (on_execute (self st)) ->
  exists w,
    (hook ← config on_execute;
     if truthy hook then call_trace hook c else mret tt) st
    = (Return tt, mkState (self st) w (stdout st)).
Proof.
  intros [Hfalse|[f Hf]]; unfold mbind, M_bind, config; cbv beta iota.
  - rewrite Hfalse. exists (host st). destruct st. reflexivity.
  - rewrite Hf. simpl. eexists. reflexivity.
Qed.

(** An instruction whose handler returns, under a quiet hook, leaves the
    engine as the handler left it. *)
Lemma execute_quiet st c h st1 :
  instruction_dict c = Some h ->
  h c st = (Return tt, st1) ->
  quiet_hook (on_execute (self st1)) ->
  exists w,
    execute_instruction c st = (Return tt, mkState (self st1) w (stdout st1)).
Proof.
  intros Hd Hh Hq. rewrite (execute_Return st c h st1 Hd Hh).
  apply quiet_hook_returns, Hq.
Qed.

Lemma run_turn fuel st c st1 :
  about_to_execute st c ->
  execute_instruction c st = (Return tt, st1) ->
  run (S fuel) st =
    run fuel
      (with_attrs (fun m => set_cycle_count (cycle_count m + 1) m) st1).
Proof.
  intros Hrun Hex. rewrite (run_step fuel st c Hrun).
  rewrite (bind_Return _ _ _ _ _ Hex). reflexivity.
Qed.

(** X11. Without a cycle limit, ["[]"] on a non-zero cell never ends:
    however many turns of the loop [run] is given, it is still running. *)
Theorem empty_loop_never_returns p st :
  spinning p st ->
  instruction_pointer (attrs (self st)) = p ->
  forall fuel, (run fuel st).1 = OutOfFuel.
Proof.
  intros Hspin Hip fuel. revert st Hspin Hip.
  assert (Hboth :
            (forall st, spinning p st ->
                        instruction_pointer (attrs (self st)) = p ->
                        (run fuel st).1 = OutOfFuel) /\
            (forall st s, spinning p st ->
                          instruction_pointer (attrs (self st)) = p + 1 ->
                          stack (attrs (self st)) = Stack.push p s ->
                          (run fuel st).1 = OutOfFuel));
    [|exact (proj1 Hboth)].
  induction fuel as [|fuel [IHopen IHclose]].
  - split.
    + intros st (Hl & Hx & _ & Hp & Hopen & _) Hip.
      rewrite run_cases. cbv zeta. rewrite Hl, Hx, Hip.
      destruct (Z.ltb_spec p (Py.len (source (attrs (self st))))) as [|Hge];
        [reflexivity|].
      rewrite getitem_past_end in Hopen by lia. discriminate.
    + intros st s (Hl & Hx & _ & Hp & _ & Hclose & _) Hip _.
      rewrite run_cases. cbv zeta. rewrite Hl, Hx, Hip.
      destruct (Z.ltb_spec (p + 1) (Py.len (source (attrs (self st)))))
        as [|Hge]; [reflexivity|].
      rewrite getitem_past_end in Hclose by lia. discriminate.
  - split.
    + intros st Hspin Hip.
      pose proof Hspin as (Hl & Hx & Hq & Hp & Hopen & Hclose & v & Hv & Hnz).
      assert (Hrun : about_to_execute st "[").
      { split.
        - rewrite Hip.
          destruct (Z.lt_ge_cases p (Py.len (source (attrs (self st)))))
            as [|Hge]; [assumption|].
          rewrite getitem_past_end in Hopen by lia. discriminate.
        - rewrite Hip. split; [exact Hopen|]. split; [exact Hx|].
          exists 0. split; [exact Hl|left; reflexivity]. }
      assert (Hh : instr_loop_start "[" st =
                     (Return tt,
                      with_attrs
                        (fun m =>
                           set_instruction_pointer (instruction_pointer m + 1)
                             (set_stack
                                (Stack.push (instruction_pointer m) (stack m))
                                m)) st)).
      { unfold instr_loop_start.
        rewrite (bind_Return _ _ _ _ _ (current_cell_eq st v Hv)).
        replace (v =? 0) with false by (symmetry; lia).
        reflexivity. }
      destruct (execute_quiet st "[" instr_loop_start _ eq_refl Hh Hq)
        as (w & Hex).
      rewrite (run_turn fuel st "[" _ Hrun Hex).
      apply (IHclose _ (stack (attrs (self st))));
        [|simpl; rewrite Hip; reflexivity..].
      repeat split; try assumption. exists v. split; assumption.
    + intros st s Hspin Hip Hstack.
      pose proof Hspin as (Hl & Hx & Hq & Hp & Hopen & Hclose & v & Hv & Hnz).
      assert (Hrun : about_to_execute st "]").
      { split.
        - rewrite Hip.
          destruct (Z.lt_ge_cases (p + 1)
                      (Py.len (source (attrs (self st))))) as [|Hge];
            [assumption|].
          rewrite getitem_past_end in Hclose by lia. discriminate.
        - rewrite Hip. split; [exact Hclose|]. split; [exact Hx|].
          exists 0. split; [exact Hl|left; reflexivity]. }
      assert (Hh : instr_loop_end "]" st =
                     (Return tt,
                      with_attrs
                        (fun m => set_instruction_pointer p (set_stack s m))
                        st)).
      { unfold instr_loop_end.
        rewrite (bind_Return _ _ _ _ _ (stack_pop_push _ _ _ Hstack)).
        rewrite (bind_Return _ _ _ _ _
                   (current_cell_eq (with_attrs (set_stack s) st) v Hv)).
        replace (v =? 0) with false by (symmetry; lia). reflexivity. }
      destruct (execute_quiet st "]" instr_loop_end _ eq_refl Hh Hq)
        as (w & Hex).
      rewrite (run_turn fuel st "]" _ Hrun Hex).
      apply IHopen; [|reflexivity].
      repeat split; try assumption. exists v. split; assumption.
Qed.

End RunProperties.

(** *** [clone], [Stack] and the dispatch table *)

Section MoreProperties.

Context {World : Type}.
Implicit Types (st : State World) (c instruction : ascii).

(** With an override, the constructor receives a name as cycle limit. *)
Lemma clone_override_cycle_limit (this : Interpreter World) source'
    (limit inp out trace : pyobj World) (that : Interpreter World) :
  is_not_None limit || is_not_None inp || is_not_None out
  || is_not_None trace = true ->
  clone this source' limit inp out trace = Return that ->
  (exists name, cycle_limit that = PyStr name) /\
  instruction_pointer (attrs that) = 0 /\
  need_to_exit (attrs that) = false.
Proof.
  intros Hsome. unfold clone.
  set (src := match source' with
              | Some s => s
              | None => source (attrs this)
              end).
  destruct (is_not_None limit), (is_not_None inp), (is_not_None out),
    (is_not_None trace); try discriminate Hsome;
    cbv - [new_Interpreter src];
    rewrite new_Interpreter_eq; (destruct (_ >? _); [discriminate|]);
    intros H;
    apply (f_equal (fun o => match o with Return x => x | _ => that end)) in H;
    cbv beta iota in H; rewrite <- H;
    (split; [eexists; reflexivity|split; reflexivity]).
Qed.

(** X12. An engine obtained from [clone] with any override cannot run a
    program: its cycle limit is the name of a parameter, and the first
    comparison of the cycle count with it raises [TypeError] before any
    instruction is fetched. *)
Theorem cloned_with_override_cannot_run (this : Interpreter World) source'
    (limit inp out trace : pyobj World) (that : Interpreter World)
    (w : World) (fuel : nat) :
  is_not_None limit || is_not_None inp || is_not_None out
  || is_not_None trace = true ->
  clone this source' limit inp out trace = Return that ->
  source (attrs that) <> [] ->
  run fuel (start that w) = (Raise TypeError, start that w).
Proof.
  intros Hsome Hclone Hsrc.
  destruct (clone_override_cycle_limit this source' limit inp out trace that
              Hsome Hclone) as ((name & Hlimit) & Hip & Hexit).
  rewrite run_cases. cbv zeta.
  change (attrs (self (start that w))) with (attrs that).
  change (cycle_limit (self (start that w))) with (cycle_limit that).
  rewrite Hip, Hexit, Hlimit.
  replace (0 <? Py.len (source (attrs that))) with true; [reflexivity|].
  symmetry. apply Z.ltb_lt. unfold Py.len.
  destruct (source (attrs that)); [congruence|simpl length; lia].
Qed.

(** X13. [Stack] is last in, first out: [pop] undoes [push] and returns
    what was pushed, [peek] returns what [pop] would without removing it,
    and both fail exactly on the stack that [is_empty] reports. *)
Theorem stack_is_lifo (s : list Z) (thing : Z) :
  Stack.pop (Stack.push thing s) = Some (thing, s) /\
  Stack.peek (Stack.push thing s) = Some thing /\
  Stack.is_empty (Stack.push thing s) = false /\
  Stack.peek s = fst <$> Stack.pop s /\
  (Stack.is_empty s = true <-> Stack.pop s = None) /\
  Stack.is_empty Stack.init = true.
Proof.
  split; [apply pop_push|].
  split; [apply getitem_last|].
  split; [apply is_empty_push|].
  destruct (empty_or_push s) as [->|(s' & x & ->)].
  - repeat split; reflexivity.
  - rewrite pop_push, is_empty_push. unfold Stack.peek, Stack.push.
    rewrite getitem_last. repeat split; discriminate.
Qed.

(** X14. Call and return pair up: after a letter has called a declared
    function, an ["@"] met with the control stack as the call left it
    resumes right after the letter and leaves the stack as it was before
    the call, without halting. *)
Theorem call_then_return st c st1 :
  Py.ord "a" <= Py.ord c <= Py.ord "z" ->
  Py.ord c - Py.ord "a" < Py.len (functions (attrs (self st))) ->
  stack (attrs (self st1))
  = stack (attrs (self (instr_function_call c st).2)) ->
  instr_return "@" st1 =
    (Return tt,
     with_attrs
       (fun m =>
          set_instruction_pointer (instruction_pointer (attrs (self st)) + 1)
            (set_stack (stack (attrs (self st))) m))
       st1).
Proof.
  intros Hc Hlt Hstack.
  assert (Hcall : stack (attrs (self (instr_function_call c st).2))
                  = Stack.push (instruction_pointer (attrs (self st)) + 1)
                      (stack (attrs (self st)))).
  { unfold instr_function_call.
    unfold mbind, M_bind, attr, stack_push, assign, or_raise, mret, M_ret,
      raise.
    simpl.
    replace (Py.ord c - Py.ord "a" <? Py.len (functions (attrs (self st))))
      with true by (symmetry; lia).
    rewrite getitem_in_range by lia.
    destruct (functions (attrs (self st)) !! _) as [target|] eqn:E;
      [reflexivity|].
    apply lookup_ge_None in E. unfold Py.len in Hlt. lia. }
  rewrite Hcall in Hstack.
  unfold instr_return, stack_is_empty.
  unfold mbind, M_bind, attr, mret, M_ret. simpl.
  rewrite Hstack, is_empty_push, (stack_pop_push _ _ _ Hstack).
  reflexivity.
Qed.

(** X15. Loop brackets pair up: after ["["] has entered a loop, a ["]"] met
    with the control stack as the ["["] left it restores the stack, and
    goes back to that ["["] if the current cell is not zero, or on to the
    next instruction if it is. *)
Theorem loop_start_then_loop_end st c st1 v v1 :
  Py.getitem (memory (attrs (self st))) (memory_pointer (attrs (self st)))
    = Some v ->
  v <> 0 ->
  stack (attrs (self st1)) = stack (attrs (self (instr_loop_start c st).2)) ->
  Py.getitem (memory (attrs (self st1))) (memory_pointer (attrs (self st1)))
    = Some v1 ->
  instr_loop_end "]" st1 =
    (Return tt,
     with_attrs
       (fun m =>
          set_instruction_pointer
            (if v1 =? 0 then instruction_pointer m + 1
             else instruction_pointer (attrs (self st)))
            (set_stack (stack (attrs (self st))) m))
       st1).
Proof.
  intros Hv Hnz Hstack Hv1.
  assert (Hopen : stack (attrs (self (instr_loop_start c st).2))
                  = Stack.push (instruction_pointer (attrs (self st)))
                      (stack (attrs (self st)))).
  { unfold instr_loop_start.
    rewrite (bind_Return _ _ _ _ _ (current_cell_eq st v Hv)).
    replace (v =? 0) with false by (symmetry; lia). reflexivity. }
  rewrite Hopen in Hstack. unfold instr_loop_end.
  rewrite (bind_Return _ _ _ _ _ (stack_pop_push _ _ _ Hstack)).
  rewrite (bind_Return _ _ _ _ _
             (current_cell_eq
                (with_attrs (set_stack (stack (attrs (self st)))) st1) v1 Hv1)).
  destruct (v1 =? 0); reflexivity.
Qed.

(** The keys listed by [instruction_set] are the characters for which
    [instruction_dict] has a handler: the two renderings of the one
    dictionary of the source agree. *)
Lemma instruction_set_is_the_dispatch_domain c :
  (In c instruction_set <->
   exists h, instruction_dict (World:=World) c = Some h) /\
  NoDup instruction_set /\
  length instruction_set = 35%nat.
Proof.
  assert (Heq : instruction_set = alphabet) by (vm_compute; reflexivity).
  split; [|split].
  - pose proof (instruction_dict_alphabet (World:=World) c) as H.
    rewrite Heq. split.
    + intros Hin. destruct (instruction_dict c) as [h|]; [eauto|].
      exfalso. symmetry in H.
      assert (existsb (Ascii.eqb c) alphabet = true); [|congruence].
      apply existsb_exists. exists c. split; [exact Hin|apply Ascii.eqb_refl].
    + intros [h Hh]. rewrite Hh in H. symmetry in H.
      apply existsb_exists in H as (x & Hx & Hcx).
      apply Ascii.eqb_eq in Hcx. subst x. exact Hx.
  - rewrite Heq. apply NoDup_ListNoDup.
    apply (List.NoDup_count_occ' ascii_dec). intros x Hx.
    vm_compute in Hx.
    repeat (destruct Hx as [<-|Hx]; [vm_compute; reflexivity|]).
    contradiction.
  - vm_compute. reflexivity.
Qed.

End MoreProperties.

(** *** The clear loop *)

Section ClearLoop.

Context {World : Type}.
Implicit Types (st : State World) (this : Interpreter World).

Lemma getitem_Some_lookup {A} (l : list A) (i : Z) (x : A) :
  0 <= i -> Py.getitem l i = Some x ->
  i < Py.len l /\ l !! Z.to_nat i = Some x.
Proof.
  intros Hi H. destruct (Z.lt_ge_cases i (Py.len l)) as [Hlt|Hge].
  - split; [exact Hlt|]. rewrite getitem_in_range in H by lia. exact H.
  - rewrite getitem_past_end in H by lia. discriminate.
Qed.

Lemma retuned_id this v :
  memory (attrs this) !! Z.to_nat (memory_pointer (attrs this)) = Some v ->
  retuned this (instruction_pointer (attrs this)) v
    (cycle_count (attrs this)) (stack (attrs this)) = this.
Proof.
  destruct this as [[src fs stk mp ip mem count exit] limit inp out trace].
  unfold retuned. simpl. intros H. rewrite list_insert_id by exact H.
  reflexivity.
Qed.

Lemma retuned_cell this ip cell count stk (w : World) out :
  0 <= memory_pointer (attrs this) < Py.len (memory (attrs this)) ->
  current_cell (mkState (retuned this ip cell count stk) w out)
  = (Return cell, mkState (retuned this ip cell count stk) w out).
Proof.
  intros Hmp. apply current_cell_eq. simpl.
  rewrite getitem_in_range
    by (unfold Py.len in *; rewrite length_insert; lia).
  apply list_lookup_insert_eq. unfold Py.len in Hmp. lia.
Qed.

(** One turn of the loop of [run] on an instruction whose handler
    returns, under a quiet hook. *)
Lemma quiet_turn st c h st1 :
  about_to_execute st c ->
  instruction_dict c = Some h ->
  h c st = (Return tt, st1) ->
  quiet_hook (on_execute (self st1)) ->
  exists w,
    forall fuel,
      run (S fuel) st =
        run fuel
          (mkState
             (self (with_attrs
                      (fun m => set_cycle_count (cycle_count m + 1) m) st1))
             w (stdout st1)).
Proof.
  intros Hrun Hd Hh Hq.
  destruct (execute_quiet st c h st1 Hd Hh Hq) as (w & Hex).
  exists w. intros fuel. rewrite (run_turn fuel st c _ Hrun Hex). reflexivity.
Qed.

Section Turns.

Variables (this : Interpreter World) (p : Z) (out : list string).
Hypothesis Hclear : clear_loop_at p this.

Let at_ (ip cell count : Z) (stk : list Z) (w : World) : State World :=
  mkState (retuned this ip cell count stk) w out.

Lemma clear_loop_about_to_execute ip cell count stk w c :
  0 <= ip ->
  Py.getitem (source (attrs this)) ip = Some c ->
  about_to_execute (at_ ip cell count stk w) c.
Proof.
  intros Hip Hc.
  destruct Hclear as (Hl & Hx & _).
  destruct (getitem_Some_lookup _ _ _ Hip Hc) as [Hlt _].
  split; [exact Hlt|]. split; [exact Hc|]. split; [exact Hx|].
  exists 0. split; [exact Hl|left; reflexivity].
Qed.

Lemma open_turn cell count stk w :
  cell <> 0 ->
  exists w',
    forall fuel,
      run (S fuel) (at_ p cell count stk w)
      = run fuel (at_ (p + 1) cell (count + 1) (Stack.push p stk) w').
Proof.
  intros Hcell.
  pose proof Hclear as (_ & _ & Hq & Hp & Hopen & _ & _ & Hmp).
  apply (quiet_turn (at_ p cell count stk w) "[" instr_loop_start
           (at_ (p + 1) cell count (Stack.push p stk) w)).
  - apply clear_loop_about_to_execute; assumption.
  - reflexivity.
  - unfold instr_loop_start.
    rewrite (bind_Return _ _ _ _ _
               (retuned_cell this p cell count stk w out Hmp)).
    replace (cell =? 0) with false by (symmetry; lia). reflexivity.
  - exact Hq.
Qed.

Lemma dec_turn cell count stk w :
  0 < cell ->
  exists w',
    forall fuel,
      run (S fuel) (at_ (p + 1) cell count stk w)
      = run fuel (at_ (p + 2) (cell - 1) (count + 1) stk w').
Proof.
  intros Hcell.
  pose proof Hclear as (_ & _ & Hq & Hp & _ & Hdec & _ & Hmp).
  assert (Hh : instr_dec_memory "-" (at_ (p + 1) cell count stk w)
               = (Return tt, at_ (p + 1 + 1) (cell - 1) count stk w)).
  { unfold instr_dec_memory.
    pose proof (retuned_cell this (p + 1) cell count stk w out Hmp) as Hc.
    rewrite (bind_Return _ _ _ _ _ Hc).
    replace (cell >? 0) with true by (symmetry; lia).
    rewrite (bind_bind_Return _ _ _ _ _ _ Hc).
    unfold set_current_cell, next_instruction, mbind, M_bind, attr, assign,
      or_raise, mret, M_ret.
    simpl.
    rewrite setitem_in_range
      by (unfold Py.len in *; rewrite length_insert; lia).
    simpl. rewrite list_insert_insert_eq. reflexivity. }
  replace (p + 2) with (p + 1 + 1) by lia.
  apply (quiet_turn (at_ (p + 1) cell count stk w) "-" instr_dec_memory
           (at_ (p + 1 + 1) (cell - 1) count stk w)).
  - apply clear_loop_about_to_execute; [lia|assumption].
  - reflexivity.
  - exact Hh.
  - exact Hq.
Qed.

Lemma close_turn cell count stk w :
  exists w',
    forall fuel,
      run (S fuel) (at_ (p + 2) cell count (Stack.push p stk) w)
      = run fuel
          (at_ (if cell =? 0 then p + 2 + 1 else p) cell (count + 1) stk w').
Proof.
  pose proof Hclear as (_ & _ & Hq & Hp & _ & _ & Hclose & Hmp).
  apply (quiet_turn (at_ (p + 2) cell count (Stack.push p stk) w) "]"
           instr_loop_end
           (at_ (if cell =? 0 then p + 2 + 1 else p) cell count stk w)).
  - apply clear_loop_about_to_execute; [lia|assumption].
  - reflexivity.
  - unfold instr_loop_end.
    rewrite (bind_Return _ _ _ _ _
               (stack_pop_push
                  (at_ (p + 2) cell count (Stack.push p stk) w) stk p
                  eq_refl)).
    rewrite (bind_Return _ _ _ _ _
               (retuned_cell this (p + 2) cell count stk w out Hmp)).
    destruct (cell =? 0); reflexivity.
  - destruct (cell =? 0); exact Hq.
Qed.

Lemma skip_turn count stk w :
  exists w',
    forall fuel,
      run (S fuel) (at_ p 0 count stk w)
      = run fuel (at_ (p + 3) 0 (count + 1) stk w').
Proof.
  pose proof Hclear as (_ & _ & Hq & Hp & Hopen & Hdec & Hclose & Hmp).
  assert (Hp1 : 0 <= p + 1) by lia.
  assert (Hp2 : 0 <= p + 2) by lia.
  destruct (getitem_Some_lookup _ _ _ Hp1 Hdec) as [_ Hd].
  destruct (getitem_Some_lookup _ _ _ Hp2 Hclose) as [Hlt2 Hc].
  assert (Hdist : closing_distance 0
                    (drop (Z.to_nat (p + 1)) (source (attrs this)))
                  = Some 1%nat).
  { rewrite (drop_S _ _ _ Hd).
    replace (S (Z.to_nat (p + 1))) with (Z.to_nat (p + 2)) by lia.
    rewrite (drop_S _ _ _ Hc). reflexivity. }
  apply (quiet_turn (at_ p 0 count stk w) "[" instr_loop_start
           (at_ (p + 3) 0 count stk w)).
  - apply clear_loop_about_to_execute; assumption.
  - reflexivity.
  - unfold instr_loop_start.
    rewrite (bind_Return _ _ _ _ _
               (retuned_cell this p 0 count stk w out Hmp)).
    simpl Z.eqb. cbv iota.
    assert (Hskip : skip_to_loop_end (at_ p 0 count stk w)
                    = (Return tt, at_ (p + 1 + Z.of_nat 1) 0 count stk w)).
    { rewrite skip_to_loop_end_eq.
      apply (skip_closes _ 0%nat 1%nat _ (at_ p 0 count stk w) Hdist).
      - simpl. lia.
      - reflexivity.
      - simpl. unfold Py.len in *. lia. }
    rewrite (bind_Return _ _ _ _ _ Hskip).
    unfold next_instruction, mbind, M_bind, attr, assign, at_. simpl.
    f_equal. unfold with_attrs, retuned, set_instruction_pointer. simpl.
    do 3 f_equal. lia.
  - exact Hq.
Qed.

(** Once round the loop. *)
Lemma clear_loop_round cell count stk w :
  0 < cell ->
  exists w',
    forall fuel,
      run (3 + fuel) (at_ p cell count stk w)
      = run fuel
          (at_ (if cell - 1 =? 0 then p + 3 else p) (cell - 1) (count + 3)
             stk w').
Proof.
  intros Hcell.
  assert (Hnz : cell <> 0) by lia.
  destruct (open_turn cell count stk w Hnz) as (w1 & H1).
  destruct (dec_turn cell (count + 1) (Stack.push p stk) w1 Hcell)
    as (w2 & H2).
  destruct (close_turn (cell - 1) (count + 1 + 1) stk w2) as (w3 & H3).
  exists w3. intros fuel.
  change (3 + fuel)%nat with (S (S (S fuel))).
  rewrite H1, H2, H3.
  replace (count + 1 + 1 + 1) with (count + 3) by lia.
  replace (p + 2 + 1) with (p + 3) by lia. reflexivity.
Qed.

Lemma clear_loop_rounds (n : nat) :
  forall count stk w,
    exists w',
      forall fuel,
        run (3 * S n + fuel) (at_ p (Z.of_nat (S n)) count stk w)
        = run fuel (at_ (p + 3) 0 (count + 3 * Z.of_nat (S n)) stk w').
Proof.
  induction n as [|n IH]; intros count stk w.
  - assert (H1 : 0 < Z.of_nat 1) by lia.
    destruct (clear_loop_round (Z.of_nat 1) count stk w H1) as (w' & H).
    exists w'. intros fuel.
    change (3 * 1 + fuel)%nat with (3 + fuel)%nat. rewrite (H fuel).
    change (Z.of_nat 1) with 1. change (1 - 1) with 0.
    change (0 =? 0) with true. cbv iota.
    replace (count + 3 * 1) with (count + 3) by lia. reflexivity.
  - assert (Hpos : 0 < Z.of_nat (S (S n))) by lia.
    destruct (clear_loop_round (Z.of_nat (S (S n))) count stk w Hpos)
      as (w1 & H1).
    destruct (IH (count + 3) stk w1) as (w' & H).
    exists w'. intros fuel.
    replace (3 * S (S n) + fuel)%nat with (3 + (3 * S n + fuel))%nat by lia.
    rewrite H1.
    replace (Z.of_nat (S (S n)) - 1) with (Z.of_nat (S n)) by lia.
    replace (Z.of_nat (S n) =? 0) with false
      by (symmetry; apply Z.eqb_neq; lia).
    rewrite H.
    replace (count + 3 + 3 * Z.of_nat (S n))
      with (count + 3 * Z.of_nat (S (S n))) by lia.
    reflexivity.
Qed.

End Turns.

(** X17. The loop ["[-]"] clears the current cell: on an engine without
    cycle limit whose current cell holds [v >= 0], [run] executes one
    instruction if [v] is 0 and [3 * v] otherwise, after which it goes on
    from the instruction after the loop with the cell at 0, the control stack
    as it was and nothing else changed but the cycle count and, through the
    trace hook, the host. *)
Theorem clear_loop_zeroes_the_cell this p v (w : World) out :
  clear_loop_at p this ->
  instruction_pointer (attrs this) = p ->
  memory (attrs this) !! Z.to_nat (memory_pointer (attrs this)) = Some v ->
  0 <= v ->
  let steps := if v =? 0 then 1 else 3 * v in
  exists w',
    forall fuel,
      run (Z.to_nat steps + fuel) (mkState this w out)
      = run fuel
          (mkState
             (retuned this (p + 3) 0 (cycle_count (attrs this) + steps)
                (stack (attrs this)))
             w' out).
Proof.
  intros Hclear Hip Hv Hpos steps.
  assert (E : mkState this w out
              = mkState
                  (retuned this p v (cycle_count (attrs this))
                     (stack (attrs this)))
                  w out).
  { f_equal. symmetry. subst p. apply retuned_id. exact Hv. }
  destruct (Z.eqb_spec v 0) as [->|Hnz]; subst steps.
  - destruct (skip_turn this p out Hclear (cycle_count (attrs this))
                (stack (attrs this)) w) as (w' & H).
    exists w'. intros fuel. rewrite E. exact (H fuel).
  - set (n := Z.to_nat (v - 1)).
    assert (Hvn : v = Z.of_nat (S n)) by lia.
    clearbody n. subst v.
    destruct (clear_loop_rounds this p out Hclear n
                (cycle_count (attrs this)) (stack (attrs this)) w)
      as (w' & H).
    exists w'. intros fuel.
    replace (Z.to_nat (3 * Z.of_nat (S n))) with (3 * S n)%nat by lia.
    rewrite E. exact (H fuel).
Qed.

End ClearLoop.

(** ** The methods outside the run loop at work *)

(** ["+a@-@."] is ["+a"], ["-"] and ["."] joined by the delimiter. *)
Lemma source_is_join_of_functions_witness :
  exists main bodies,
    source_no_functions two_functions = Return main /\
    get_function two_functions 1 = Return (list_ascii_of_string ".") /\
    get_function two_functions 2 = Raise IndexError /\
    Str.join "@" (main :: bodies) = list_ascii_of_string "+a@-@.".
Proof.
  destruct (source_is_join_of_functions two_functions)
    as (main & bodies & Hmain & Hlen & Hget & Hjoin & _); [reflexivity|].
  exists main, bodies. split; [exact Hmain|].
  split; [reflexivity|]. split; [reflexivity|]. exact Hjoin.
Defined.

(** In ["+a@-@."] the last function is ["."], and [get_function(-1)] is
    empty all the same. *)
Lemma get_function_minus_one_is_empty_witness :
  get_function two_functions (-1) = Return [].
Proof.
  apply get_function_minus_one_is_empty; [reflexivity|].
  vm_compute. discriminate.
Defined.

(** Setting function 3 of ["+a@-@."] to ["++"] gives four functions, the
    third one empty. *)
Lemma set_function_replaces_one_function_witness :
  exists that,
    set_function two_functions 3 (list_ascii_of_string "++") = Return that /\
    Py.len (functions (attrs that)) = 4 /\
    get_function that 3 = Return (list_ascii_of_string "++") /\
    get_function that 2 = Return [] /\
    get_function that 1 = Return (list_ascii_of_string ".").
Proof.
  destruct (set_function_replaces_one_function two_functions 3
              (list_ascii_of_string "++"))
    as (that & Hset & _ & Hlen & Hget & Hold & Hnew & _).
  - reflexivity.
  - lia.
  - unfold delimiter_free. simpl. intros [H|[H|[]]]; discriminate H.
  - vm_compute. discriminate.
  - exists that. split; [exact Hset|]. split; [exact Hlen|].
    split; [exact Hget|]. split.
    + apply Hnew. vm_compute. split; [discriminate|reflexivity].
    + rewrite Hold; [reflexivity|vm_compute; split; [discriminate|reflexivity]
                    |discriminate].
Defined.

(** Editing function 0 of an engine with a cycle limit of 5, two cycles
    into its run, gives an engine without cycle limit that has not run. *)
Lemma set_function_returns_a_fresh_engine_witness :
  exists that,
    set_function limited_engine 0 (list_ascii_of_string ">") = Return that /\
    source (attrs that) = list_ascii_of_string "+a@>@." /\
    cycle_limit that = PyInt 0 /\
    cycle_count (attrs that) = 0 /\
    instruction_pointer (attrs that) = 0.
Proof.
  destruct (set_function limited_engine 0 (list_ascii_of_string ">"))
    as [that| |] eqn:E; [|discriminate E..].
  destruct (set_function_returns_a_fresh_engine limited_engine 0
              (list_ascii_of_string ">") that E)
    as (Hlimit & _ & _ & _ & _ & _ & Hip & Hcount & _).
  exists that. split; [reflexivity|].
  split; [|split; [exact Hlimit|split; [exact Hcount|exact Hip]]].
  apply (f_equal (fun r => match r with
                           | Return i => source (attrs i)
                           | _ => []
                           end)) in E.
  symmetry. exact E.
Defined.

(** Function 1 of ["+a@-@."] is ["."]; writing it back gives ["+a@-@."]. *)
Lemma set_function_get_function_witness :
  set_function two_functions 1 (list_ascii_of_string ".") =
    new_Interpreter (list_ascii_of_string "+a@-@.") (PyInt 0) PyNone PyNone
      PyNone.
Proof.
  apply (set_function_get_function two_functions 1 (list_ascii_of_string "."));
    [reflexivity|lia|reflexivity].
Defined.

(** There is no function 26. *)
Lemma set_function_beyond_limit_raises_witness :
  set_function two_functions 26 (list_ascii_of_string "+")
  = Raise (NameError "functions").
Proof.
  apply set_function_beyond_limit_raises; [reflexivity|].
  unfold max_functions. lia.
Defined.

(** [set_function(-1, ">")] on ["+a@-@."] is the constructor on
    [">@-@."]. *)
Lemma set_function_minus_one_replaces_main_witness :
  set_function two_functions (-1) (list_ascii_of_string ">") =
    new_Interpreter (list_ascii_of_string ">@-@.") (PyInt 0) PyNone PyNone
      PyNone.
Proof.
  destruct (set_function_minus_one_replaces_main two_functions
              (list_ascii_of_string ">") eq_refl)
    as (main & bodies & Hsplit & Hset).
  vm_compute in Hsplit. injection Hsplit as Hmain Hbodies. subst bodies.
  exact Hset.
Defined.

(** ["+a@-@."] run to its end is still the program the constructor
    read. *)
Lemma run_keeps_the_program_witness :
  constructed (self (run 10 (tiny "+a@-@." 0 [0; 0; 0] [] false)).2).
Proof.
  apply (proj2 (run_keeps_the_program 10
                  (tiny "+a@-@." 0 [0; 0; 0] [] false))).
  reflexivity.
Defined.

(** After ["+@-"] has run to its halt, another [run] changes nothing. *)
Lemma run_again_does_nothing_witness :
  let st' := (run 5 (tiny "+@-" 0 [0; 0; 0] [] false)).2 in
  (run 5 st').1 = Return tt /\
  self (run 5 st').2 = self st' /\
  host (run 5 st').2 = host st'.
Proof.
  intros st'.
  apply (run_again_does_nothing 5 5 (tiny "+@-" 0 [0; 0; 0] [] false)).
  reflexivity.
Defined.

(** ["[]"] on a cell at 1 is still running after a thousand turns. *)
Lemma empty_loop_never_returns_witness :
  (run 1000 (tiny "[]" 0 [1; 0; 0] [] false)).1 = OutOfFuel.
Proof.
  apply (empty_loop_never_returns 0); [|reflexivity].
  split; [reflexivity|]. split; [reflexivity|].
  split; [left; reflexivity|]. split; [lia|].
  split; [reflexivity|]. split; [reflexivity|].
  exists 1. split; [reflexivity|lia].
Defined.

(** [Interpreter("+").clone(cycle_limit=5)] raises on [run]. *)
Lemma cloned_with_override_cannot_run_witness :
  exists that : Interpreter unit,
    clone (self (tiny "+" 0 [0; 0; 0] [] false)) None (PyInt 5) PyNone PyNone
      PyNone = Return that /\
    run 10 (start that tt) = (Raise TypeError, start that tt).
Proof.
  destruct (clone (self (tiny "+" 0 [0; 0; 0] [] false)) None (PyInt 5)
              PyNone PyNone PyNone) as [that| |] eqn:E; [|discriminate E..].
  exists that. split; [reflexivity|].
  apply (cloned_with_override_cannot_run
           (self (tiny "+" 0 [0; 0; 0] [] false)) None (PyInt 5) PyNone
           PyNone PyNone that tt 10); [reflexivity|exact E|].
  apply (f_equal (fun r => match r with
                           | Return i => source (attrs i)
                           | _ => []
                           end)) in E.
  rewrite <- E. discriminate.
Defined.

(** In ["a@+@"] the letter at 0 calls the function at 2, and the ["@"] at 3
    returns to 1. *)
Lemma call_then_return_witness :
  instr_return "@" (tiny "a@+@" 3 [1; 0; 0] [1] false)
  = (Return tt, tiny "a@+@" 1 [1; 0; 0] [] false).
Proof.
  apply (call_then_return (tiny "a@+@" 0 [0; 0; 0] [] false) "a"
           (tiny "a@+@" 3 [1; 0; 0] [1] false)).
  - vm_compute. split; discriminate.
  - reflexivity.
  - reflexivity.
Defined.

(** In ["+[-]"] the ["]"] at 3 goes on to 4 when the cell is 0 and back to
    the ["["] at 1 when it is not. *)
Lemma loop_start_then_loop_end_witness :
  instr_loop_end "]" (tiny "+[-]" 3 [0; 0; 0] [1] false)
  = (Return tt, tiny "+[-]" 4 [0; 0; 0] [] false) /\
  instr_loop_end "]" (tiny "+[-]" 3 [1; 0; 0] [1] false)
  = (Return tt, tiny "+[-]" 1 [1; 0; 0] [] false).
Proof.
  split.
  - apply (loop_start_then_loop_end (tiny "+[-]" 1 [1; 0; 0] [] false) "["
             (tiny "+[-]" 3 [0; 0; 0] [1] false) 1 0);
      [reflexivity|lia|reflexivity|reflexivity].
  - apply (loop_start_then_loop_end (tiny "+[-]" 1 [2; 0; 0] [] false) "["
             (tiny "+[-]" 3 [1; 0; 0] [1] false) 2 1);
      [reflexivity|lia|reflexivity|reflexivity].
Defined.

(** ["[-]"] on a cell at 3 takes nine instructions. *)
Lemma clear_loop_zeroes_the_cell_witness :
  exists w',
    forall fuel,
      run (9 + fuel) (tiny "[-]" 0 [3; 0; 0] [] false)
      = run fuel
          (mkState
             (mkInterpreter
                (mkMachine (list_ascii_of_string "[-]") [] [] 0 3 [0; 0; 0] 9
                   false)
                (PyInt 0) PyNone PyNone PyNone)
             w' []).
Proof.
  apply (clear_loop_zeroes_the_cell (self (tiny "[-]" 0 [3; 0; 0] [] false))
           0 3 tt []); [|reflexivity|reflexivity|lia].
  split; [reflexivity|]. split; [reflexivity|].
  split; [left; reflexivity|]. split; [lia|].
  split; [reflexivity|]. split; [reflexivity|]. split; [reflexivity|].
  unfold Py.len. simpl. lia.
Defined.
